(** * Validator key service: request lifecycle

    A shallow embedding of the FastAPI validator service
    ([database.py], [models.py], [key_manager.py], [tasks.py], [main.py])
    and the properties of its asynchronous request lifecycle.

    The two SQL tables are a finite map (the primary key [request_id]) and a
    list in insertion order (the auto-incremented [key_id]).  Coroutines are
    functions in a state-and-exception monad over the [World]; what the
    environment decides (the fresh UUID, the time of a commit, whether a
    database call or the key generator raises) is passed in explicitly. *)

From Stdlib Require Import Ascii String.
From stdpp Require Import gmap strings list fin_maps pretty.

Local Open Scope Z_scope.
Local Open Scope string_scope.

(* ===================================================================== *)
(** ** Exceptions and logging *)
(* ===================================================================== *)

(** The exceptions the service raises or lets through.  [SQLAlchemyError]
    stands for what a session call raises, [RuntimeError] for any other
    [Exception]. *)
Inductive exn :=
| HTTPException (status_code : Z) (detail : string)
| ValidationError (msg : string)
| SQLAlchemyError (msg : string)
| RuntimeError (msg : string).

(** [str(e)] *)
Definition str (e : exn) : string :=
  match e with
  | HTTPException _ detail => detail
  | ValidationError msg | SQLAlchemyError msg | RuntimeError msg => msg
  end.

Inductive result (A : Type) :=
| Ok (a : A)
| Raise (e : exn).
Arguments Ok {A} a.
Arguments Raise {A} e.

Inductive level := DEBUG | INFO | WARNING | ERROR.

Definition LogRecord : Type := level * string.

(* ===================================================================== *)
(** ** database.py *)
(* ===================================================================== *)

Record ValidatorRequest := mkValidatorRequest {
  request_id : string;
  num_validators : Z;
  fee_recipient : string;
  status : string;
  created_at : Z;
  updated_at : Z
}.

Record ValidatorKey := mkValidatorKey {
  key_id : Z;
  key_request_id : string;
  key : string;
  key_fee_recipient : string;
  key_created_at : Z
}.

(** Table [validator_requests] is keyed by its primary key; table
    [validator_keys] lists its rows by increasing [key_id]. *)
Record Database := mkDatabase {
  validator_requests : gmap string ValidatorRequest;
  validator_keys : list ValidatorKey
}.

Definition empty_db : Database := mkDatabase ∅ [].

(** [request.status], for where a parameter named [status] hides the
    column. *)
Definition request_status (request : ValidatorRequest) : string := status request.

(** What the UPDATE of a status writes to a row: the new status, and the
    time the column's [onupdate] hook gives to [updated_at]. *)
Definition set_status (st : string) (now : Z) (r : ValidatorRequest) : ValidatorRequest :=
  mkValidatorRequest (request_id r) (num_validators r) (fee_recipient r)
                     st (created_at r) now.

(** [select(ValidatorRequest).where(ValidatorRequest.request_id == rid)]
    followed by [scalar_one_or_none()] *)
Definition select_request (rid : string) (d : Database) : option ValidatorRequest :=
  validator_requests d !! rid.

(** [select(ValidatorKey.key).where(ValidatorKey.request_id == rid)], the
    rows in table order *)
Definition select_keys (rid : string) (d : Database) : list string :=
  key <$> filter (λ k, key_request_id k = rid) (validator_keys d).

(** INSERT of a request row. *)
Definition insert_request (r : ValidatorRequest) (d : Database) : Database :=
  mkDatabase (<[request_id r := r]> (validator_requests d)) (validator_keys d).

(** The next auto-incremented [key_id]: no row is ever deleted, so it is
    the number of rows plus one. *)
Definition next_key_id (d : Database) : Z :=
  Z.of_nat (length (validator_keys d)) + 1.

(** INSERT of a key row. *)
Definition insert_key (rid k fee : string) (now : Z) (d : Database) : Database :=
  mkDatabase (validator_requests d)
             (validator_keys d ++ [mkValidatorKey (next_key_id d) rid k fee now]).

(** [UPDATE validator_requests SET status, updated_at WHERE request_id = rid] *)
Definition update_status (rid st : string) (now : Z) (d : Database) : Database :=
  mkDatabase (alter (set_status st now) rid (validator_requests d)) (validator_keys d).

(* ===================================================================== *)
(** ** The world: database, event-loop tasks, log *)
(* ===================================================================== *)

(** Where [update_request_status] was called from in
    [process_validator_creation]: the handler of a failed key commit, the
    end of the loop, or the outer [except]. *)
Inductive site := AfterCommitError | AfterLoop | InExcept.

Definition site_status (s : site) : string :=
  match s with
  | AfterLoop => "successful"
  | AfterCommitError | InExcept => "failed"
  end.

(** The [await] at which a [process_validator_creation] coroutine is
    suspended. *)
Inductive pc :=
| Created
| AtGenerate (i : nat)
| AtKeyCommit (i : nat) (k : string)
| AtStatusExecute (s : site)
| AtStatusCommit (s : site) (loaded : string)
| Finished.

Record Task := mkTask {
  task_request_id : string;
  task_num_validators : Z;
  task_fee_recipient : string;
  task_pc : pc
}.

Record World := mkWorld {
  db : Database;
  tasks : list Task;
  log : list LogRecord
}.

Definition empty_world : World := mkWorld empty_db [] [].

(* ===================================================================== *)
(** ** The monad of coroutines *)
(* ===================================================================== *)

Definition M (A : Type) : Type := World → result A * World.

Definition ret {A} (a : A) : M A := λ w, (Ok a, w).

Definition raise {A} (e : exn) : M A := λ w, (Raise e, w).

Definition bind {A B} (m : M A) (f : A → M B) : M B :=
  λ w, match m w with
       | (Ok a, w') => f a w'
       | (Raise e, w') => (Raise e, w')
       end.

(** [try: m  except Exception as e: h e] *)
Definition try_except {A} (m : M A) (h : exn → M A) : M A :=
  λ w, match m w with
       | (Ok a, w') => (Ok a, w')
       | (Raise e, w') => h e w'
       end.

Declare Scope M_scope.
Delimit Scope M_scope with M.
Notation "'let!' x ':=' m 'in' k" := (bind m (λ x, k))
  (at level 10, x name, m at level 100, k at level 200) : M_scope.
Notation "m '>>' k" := (bind m (λ _, k))
  (at level 100, k at level 200, right associativity) : M_scope.
Local Open Scope M_scope.

Definition get_db : M Database := λ w, (Ok (db w), w).

Definition put_db (d : Database) : M unit :=
  λ w, (Ok (), mkWorld d (tasks w) (log w)).

Definition logger (l : level) (msg : string) : M unit :=
  λ w, (Ok (), mkWorld (db w) (tasks w) (log w ++ [(l, msg)])).

(** [await session.execute(...)]: raises what the database raises. *)
Definition session_execute (o : result unit) : M Database :=
  match o with
  | Ok _ => get_db
  | Raise e => raise e
  end.

(** [await session.commit()] after [session.add(validator_request)]: the
    INSERT is refused when the primary key is taken. *)
Definition commit_request (o : result Z) (rid : string) (n : Z) (fee st : string) : M unit :=
  match o with
  | Ok now =>
      let! d := get_db in
      match select_request rid d with
      | Some _ => raise (SQLAlchemyError "UNIQUE constraint failed: validator_requests.request_id")
      | None => put_db (insert_request (mkValidatorRequest rid n fee st now now) d)
      end
  | Raise e => raise e
  end.

(** [await session.commit()] after [session.add(validator_key)] *)
Definition commit_key (o : result Z) (rid k fee : string) : M unit :=
  match o with
  | Ok now => let! d := get_db in put_db (insert_key rid k fee now d)
  | Raise e => raise e
  end.

(** [await session.commit()] after [request.status = status], for a
    request that the session loaded with the status [loaded].  The unit of
    work writes an UPDATE only for an attribute whose value has changed:
    when [status] is the status that was loaded, nothing is written, and
    [onupdate] does not run. *)
Definition commit_status (o : result Z) (rid loaded st : string) : M unit :=
  match o with
  | Ok now =>
      if decide (loaded = st) then ret ()
      else let! d := get_db in put_db (update_status rid st now d)
  | Raise e => raise e
  end.

(* ===================================================================== *)
(** ** key_manager.py *)
(* ===================================================================== *)

(** [MockKeyManager.generate_key]: the token of [secrets.token_hex(16)] is
    the environment's; a generator that fails raises before it logs. *)
Definition generate_key (o : result string) : M string :=
  match o with
  | Ok k => logger DEBUG ("Generated key: " ++ String.substring 0 16 k ++ "...") >> ret k
  | Raise e => raise e
  end.

(* ===================================================================== *)
(** ** models.py *)
(* ===================================================================== *)

Module models.

Record CreateValidatorRequest := mkCreateValidatorRequest {
  num_validators : Z;
  fee_recipient : string
}.

Record CreateValidatorResponse := mkCreateValidatorResponse {
  request_id : string;
  message : string
}.

Record ValidatorStatusResponse := mkValidatorStatusResponse {
  status : string;
  keys : option (list string);
  status_message : option string
}.

Record HealthResponse := mkHealthResponse {
  health_status : string;
  database : string
}.

(** The character class [[a-fA-F0-9]] *)
Definition is_hex (c : ascii) : bool :=
  let n := nat_of_ascii c in
  ((48 <=? n) && (n <=? 57) || (97 <=? n) && (n <=? 102) || (65 <=? n) && (n <=? 70))%nat.

(** [[a-fA-F0-9]{count}]: the rest of the string after [count] such
    characters *)
Fixpoint match_hex (count : nat) (s : string) : option string :=
  match count with
  | O => Some s
  | S count' =>
      match s with
      | String c s' => if is_hex c then match_hex count' s' else None
      | EmptyString => None
      end
  end.

(** [$] without [re.MULTILINE]: the end of the string, or just before a
    newline that ends the string. *)
Definition match_dollar (s : string) : bool :=
  match s with
  | EmptyString => true
  | String c EmptyString => bool_decide (c = "010"%char)
  | _ => false
  end.

(** [re.match(r"^0x[a-fA-F0-9]{40}$", v)] is not [None] *)
Definition re_match_pattern (v : string) : bool :=
  match v with
  | String "0" (String "x" s) =>
      match match_hex 40 s with
      | Some s' => match_dollar s'
      | None => false
      end
  | _ => false
  end.

Definition validate_ethereum_address (v : string) : result string :=
  if re_match_pattern v then Ok v
  else Raise (ValidationError
    "Invalid Ethereum address format. Must be 0x followed by 40 hex characters.").

(** Building a [CreateValidatorRequest] from the body of a POST:
    [Field(..., gt=0)] on [num_validators], the field validator on
    [fee_recipient]. *)
Definition validate (n : Z) (fee : string) : result CreateValidatorRequest :=
  if bool_decide (0 < n) then
    match validate_ethereum_address fee with
    | Ok v => Ok (mkCreateValidatorRequest n v)
    | Raise e => Raise e
    end
  else Raise (ValidationError "Input should be greater than 0").

End models.

(* ===================================================================== *)
(** ** tasks.py *)
(* ===================================================================== *)

(** [update_request_status]: [oe] is what [session.execute] does and [oc]
    what [session.commit] does. *)
Definition update_request_status (oe : result unit) (oc : result Z)
    (request_id status : string) : M unit :=
  try_except
    (let! d := session_execute oe in
     match select_request request_id d with
     | Some request =>
         commit_status oc request_id (request_status request) status >>
         logger INFO ("Updated request " ++ request_id ++ " status to " ++ status)
     | None =>
         logger ERROR ("Request " ++ request_id ++ " not found in database")
     end)
    (λ e, logger ERROR ("Failed to update request " ++ request_id ++
                        " status to " ++ status ++ ": " ++ str e)).

(** What the environment does during one run of
    [process_validator_creation]: the generator and the key commit of each
    item, and the two database calls of the status update. *)
Record JobEnv := mkJobEnv {
  generate_key_result : nat → result string;
  key_commit_result : nat → result Z;
  status_execute_result : result unit;
  status_commit_result : result Z
}.

(** How an iteration of the loop ends: it falls through to the next one, or
    it leaves the coroutine by [return]. *)
Inductive flow := Next | Return.

(** The iterations [i, i+1, ..., i+count-1] of
    [for _ in range(num_validators)]. *)
Fixpoint for_range (env : JobEnv) (request_id fee_recipient : string)
    (i count : nat) : M flow :=
  match count with
  | O => ret Next
  | S count' =>
      let! k := generate_key (generate_key_result env i) in
      let! f :=
        try_except
          (commit_key (key_commit_result env i) request_id k fee_recipient >> ret Next)
          (λ e,
            logger ERROR ("Failed to store key for request " ++ request_id ++ ": " ++ str e) >>
            update_request_status (status_execute_result env) (status_commit_result env)
                                  request_id "failed" >>
            ret Return) in
      match f with
      | Return => ret Return
      | Next => for_range env request_id fee_recipient (S i) count'
      end
  end.

Definition process_validator_creation (env : JobEnv)
    (request_id : string) (num_validators : Z) (fee_recipient : string) : M unit :=
  try_except
    (logger INFO ("Starting validator creation task for request " ++ request_id) >>
     let! f := for_range env request_id fee_recipient 0 (Z.to_nat num_validators) in
     match f with
     | Return => ret ()
     | Next =>
         update_request_status (status_execute_result env) (status_commit_result env)
                               request_id "successful" >>
         logger INFO ("Successfully completed validator creation for request " ++ request_id)
     end)
    (λ e,
      logger ERROR ("Error processing validator creation for request " ++ request_id ++
                    ": " ++ str e) >>
      update_request_status (status_execute_result env) (status_commit_result env)
                            request_id "failed").

(** [asyncio.create_task]: the coroutine is handed to the event loop and has
    not run yet. *)
Definition spawn_validator_task (request_id : string) (num_validators : Z)
    (fee_recipient : string) : M unit :=
  λ w, (Ok (), mkWorld (db w)
                       (tasks w ++ [mkTask request_id num_validators fee_recipient Created])
                       (log w)).

(* ===================================================================== *)
(** ** main.py *)
(* ===================================================================== *)

(** POST /validators.  [uuid4] is the value of [uuid.uuid4()], [oc] what
    [db.commit] does and [orf] what [db.refresh] does. *)
Definition create_validator_request (uuid4 : string) (oc : result Z) (orf : result unit)
    (request : models.CreateValidatorRequest) : M models.CreateValidatorResponse :=
  let request_id := uuid4 in
  logger INFO ("Creating validator request " ++ request_id ++ " for " ++
               pretty (models.num_validators request) ++ " validators") >>
  commit_request oc request_id (models.num_validators request)
                 (models.fee_recipient request) "started" >>
  (let! _ := session_execute orf in
   spawn_validator_task request_id (models.num_validators request)
                        (models.fee_recipient request) >>
   logger INFO ("Validator request " ++ request_id ++ " created and processing started") >>
   ret (models.mkCreateValidatorResponse request_id "Validator creation in progress")).

(** GET /validators/{request_id}.  [oe1] is what the SELECT of the request
    does and [oe2] what the SELECT of the keys does. *)
Definition get_validator_status (oe1 oe2 : result unit) (request_id : string)
    : M models.ValidatorStatusResponse :=
  logger INFO ("Checking status for request " ++ request_id) >>
  (let! d := session_execute oe1 in
   match select_request request_id d with
   | None =>
       logger WARNING ("Request " ++ request_id ++ " not found") >>
       raise (HTTPException 404 "Request not found")
   | Some request =>
       if bool_decide (status request = "successful") then
         let! d' := session_execute oe2 in
         let keys := select_keys request_id d' in
         logger INFO ("Request " ++ request_id ++ " is successful with " ++
                      pretty (length keys) ++ " keys") >>
         ret (models.mkValidatorStatusResponse (status request) (Some keys) None)
       else if bool_decide (status request = "failed") then
         logger INFO ("Request " ++ request_id ++ " failed") >>
         ret (models.mkValidatorStatusResponse (status request) None
                                               (Some "Error processing request"))
       else
         ret (models.mkValidatorStatusResponse (status request) None None)
   end).

(** GET /health *)
Definition health_check (oe : result unit) : M models.HealthResponse :=
  try_except
    (let! _ := session_execute oe in
     logger DEBUG "Health check: Database connection successful" >>
     ret (models.mkHealthResponse "healthy" "connected"))
    (λ e,
      logger ERROR ("Health check: Database connection failed: " ++ str e) >>
      raise (HTTPException 500 "Database connection failed")).

(** The route POST /validators as FastAPI runs it: the body is validated
    into a [CreateValidatorRequest] before the handler is called. *)
Definition post_validators (num_validators : Z) (fee_recipient : string)
    (uuid4 : string) (oc : result Z) (orf : result unit)
    : M models.CreateValidatorResponse :=
  match models.validate num_validators fee_recipient with
  | Ok request => create_validator_request uuid4 oc orf request
  | Raise e => raise e
  end.

(* ===================================================================== *)
(** ** The event loop: coroutines resumed one [await] at a time *)
(* ===================================================================== *)

(** What the environment answers to the [await] a task is suspended at. *)
Record Outcome := mkOutcome {
  o_generate : result string;
  o_commit : result Z;
  o_execute : result unit
}.

(** The head of the [for] loop before iteration [i]. *)
Definition loop_head (i : nat) (num_validators : Z) : pc :=
  if bool_decide (i < Z.to_nat num_validators)%nat then AtGenerate i
  else AtStatusExecute AfterLoop.

(** What [process_validator_creation] does once [update_request_status] has
    returned to the call site [s]. *)
Definition after_update (s : site) (request_id : string) : M pc :=
  match s with
  | AfterLoop =>
      logger INFO ("Successfully completed validator creation for request " ++ request_id) >>
      ret Finished
  | AfterCommitError | InExcept => ret Finished
  end.

(** [process_validator_creation] from the [await] it is suspended at to the
    next one. *)
Definition task_step (o : Outcome) (t : Task) : M pc :=
  let request_id := task_request_id t in
  match task_pc t with
  | Created =>
      logger INFO ("Starting validator creation task for request " ++ request_id) >>
      ret (loop_head 0 (task_num_validators t))
  | AtGenerate i =>
      try_except
        (let! k := generate_key (o_generate o) in ret (AtKeyCommit i k))
        (λ e,
          logger ERROR ("Error processing validator creation for request " ++ request_id ++
                        ": " ++ str e) >>
          ret (AtStatusExecute InExcept))
  | AtKeyCommit i k =>
      try_except
        (commit_key (o_commit o) request_id k (task_fee_recipient t) >>
         ret (loop_head (S i) (task_num_validators t)))
        (λ e,
          logger ERROR ("Failed to store key for request " ++ request_id ++ ": " ++ str e) >>
          ret (AtStatusExecute AfterCommitError))
  | AtStatusExecute s =>
      let! found :=
        try_except
          (let! d := session_execute (o_execute o) in
           match select_request request_id d with
           | Some request => ret (Some (status request))
           | None =>
               logger ERROR ("Request " ++ request_id ++ " not found in database") >>
               ret None
           end)
          (λ e,
            logger ERROR ("Failed to update request " ++ request_id ++
                          " status to " ++ site_status s ++ ": " ++ str e) >>
            ret None) in
      match found with
      | Some loaded => ret (AtStatusCommit s loaded)
      | None => after_update s request_id
      end
  | AtStatusCommit s loaded =>
      try_except
        (commit_status (o_commit o) request_id loaded (site_status s) >>
         logger INFO ("Updated request " ++ request_id ++ " status to " ++ site_status s))
        (λ e,
          logger ERROR ("Failed to update request " ++ request_id ++
                        " status to " ++ site_status s ++ ": " ++ str e)) >>
      after_update s request_id
  | Finished => ret Finished
  end.

Definition set_pc (p : pc) (t : Task) : Task :=
  mkTask (task_request_id t) (task_num_validators t) (task_fee_recipient t) p.

(** The event loop resumes task [j]. *)
Definition resume (j : nat) (o : Outcome) (w : World) : World :=
  match tasks w !! j with
  | None => w
  | Some t =>
      match task_step o t w with
      | (Ok p, w') => mkWorld (db w') (<[j := set_pc p t]> (tasks w')) (log w')
      | (Raise _, w') => w'
      end
  end.

(** What happens to the service: a request comes in, or the event loop
    resumes a task.  A handler runs from its request to its response. *)
Inductive event :=
| Post (num_validators : Z) (fee_recipient uuid4 : string) (oc : result Z) (orf : result unit)
| Get (request_id : string) (oe1 oe2 : result unit)
| Health (oe : result unit)
| Resume (j : nat) (o : Outcome).

Definition system_step (w : World) (ev : event) : World :=
  match ev with
  | Post n fee uuid4 oc orf => (post_validators n fee uuid4 oc orf w).2
  | Get rid oe1 oe2 => (get_validator_status oe1 oe2 rid w).2
  | Health oe => (health_check oe w).2
  | Resume j o => resume j o w
  end.

Definition run (evs : list event) (w : World) : World := foldl system_step w evs.

(** The worlds the service can be in. *)
Definition reachable (w : World) : Prop := ∃ evs, w = run evs empty_world.

(** One task run to its end with nothing in between: the outcome of each
    [await] is the one [env] has for it. *)
Definition env_outcome (env : JobEnv) (p : pc) : Outcome :=
  match p with
  | AtGenerate i => mkOutcome (generate_key_result env i) (Ok 0) (Ok ())
  | AtKeyCommit i _ => mkOutcome (Ok "") (key_commit_result env i) (Ok ())
  | AtStatusExecute _ => mkOutcome (Ok "") (Ok 0) (status_execute_result env)
  | AtStatusCommit _ _ => mkOutcome (Ok "") (status_commit_result env) (Ok ())
  | Created | Finished => mkOutcome (Ok "") (Ok 0) (Ok ())
  end.

Fixpoint run_task (env : JobEnv) (fuel : nat) (j : nat) (w : World) : World :=
  match fuel with
  | O => w
  | S fuel' =>
      match tasks w !! j with
      | Some t => run_task env fuel' j (resume j (env_outcome env (task_pc t)) w)
      | None => w
      end
  end.

Definition count_keys (request_id : string) (d : Database) : nat :=
  length (select_keys request_id d).

Definition status_of (request_id : string) (d : Database) : option string :=
  status <$> select_request request_id d.

(* ===================================================================== *)
(** ** What the properties are stated with *)
(* ===================================================================== *)

(** A status no transition leaves. *)
Definition terminal (st : string) : Prop := st = "successful" ∨ st = "failed".

(** What holds of a task suspended at [p], of the [c] keys stored for its
    request and of the status [st] of the request, when the task is to make
    [N] keys. *)
Definition pc_ok (N c : nat) (st : string) (p : pc) : Prop :=
  match p with
  | Created => c = 0%nat ∧ st = "started"
  | AtGenerate i | AtKeyCommit i _ => c = i ∧ (i < N)%nat ∧ st = "started"
  | AtStatusExecute AfterLoop | AtStatusCommit AfterLoop _ => c = N ∧ st = "started"
  | AtStatusExecute _ | AtStatusCommit _ _ => (c < N)%nat ∧ st = "started"
  | Finished =>
      (st = "started" ∧ (c ≤ N)%nat) ∨ (st = "successful" ∧ c = N) ∨
      (st = "failed" ∧ (c < N)%nat)
  end.

(** The invariant of the service. *)
Record Inv (w : World) : Prop := mkInv {
  inv_nodup : NoDup (task_request_id <$> tasks w);
  inv_task : ∀ j t, tasks w !! j = Some t →
    ∃ r, select_request (task_request_id t) (db w) = Some r ∧
         num_validators r = task_num_validators t ∧
         pc_ok (Z.to_nat (task_num_validators t))
               (count_keys (task_request_id t) (db w)) (status r) (task_pc t);
  inv_orphan : ∀ rid r, select_request rid (db w) = Some r →
    rid ∉ task_request_id <$> tasks w →
    status r = "started" ∧ count_keys rid (db w) = 0%nat;
  inv_key : ∀ k, k ∈ validator_keys (db w) →
    is_Some (select_request (key_request_id k) (db w));
  inv_positive : ∀ rid r, select_request rid (db w) = Some r → 0 < num_validators r
}.

(** Under [env], item [j] of a job goes through: the generator returns a
    key and the commit of the key row is written. *)
Definition item_ok (env : JobEnv) (j : nat) : Prop :=
  (∃ k, generate_key_result env j = Ok k) ∧ (∃ now, key_commit_result env j = Ok now).

(** The key the generator returns for item [j] under [env]. *)
Definition generated (env : JobEnv) (j : nat) : string :=
  match generate_key_result env j with
  | Ok k => k
  | Raise _ => ""
  end.

(** The rows [ks] are rows of the request [rid] with the recipient [fee]. *)
Definition rows_of (rid fee : string) (ks : list ValidatorKey) : Prop :=
  Forall (λ k, key_request_id k = rid ∧ key_fee_recipient k = fee) ks.

(** From [w] to [w1] the key rows [ks] were stored, and nothing else was
    written to the tables or done to the tasks. *)
Definition stored (w w1 : World) (ks : list ValidatorKey) : Prop :=
  validator_requests (db w1) = validator_requests (db w) ∧
  validator_keys (db w1) = (validator_keys (db w) ++ ks)%list ∧
  tasks w1 = tasks w.

(** Every task of the request [rid] has run to its end. *)
Definition job_over (rid : string) (w : World) : Prop :=
  ∀ j t, tasks w !! j = Some t → task_request_id t = rid → task_pc t = Finished.

(* ===================================================================== *)
(** ** Scenarios *)
(* ===================================================================== *)

Definition fee_sample : string := "0x1234567890abcdef1234567890abcdef12345678".

(** The environment answers an [await] without a fault: the generator
    returns [k], a commit is written at time [now]. *)
Definition answers (k : string) (now : Z) : Outcome :=
  mkOutcome (Ok k) (Ok now) (Ok ()).

(** The environment makes the commit a task awaits fail. *)
Definition commit_raises : Outcome :=
  mkOutcome (Ok "") (Raise (SQLAlchemyError "database is locked")) (Ok ()).

(** A request for three keys is accepted and its job generates and stores
    the three keys; what is left is the write of the status. *)
Definition three_keys_stored : list event :=
  [ Post 3 fee_sample "req-1" (Ok 10) (Ok ());
    Resume 0 (answers "" 10);
    Resume 0 (answers "k0" 11); Resume 0 (answers "k0" 11);
    Resume 0 (answers "k1" 12); Resume 0 (answers "k1" 12);
    Resume 0 (answers "k2" 13); Resume 0 (answers "k2" 13);
    Resume 0 (answers "" 14) ].

(** Scenario A: the status is written. *)
Definition world_A : World :=
  run (three_keys_stored ++ [Resume 0 (answers "" 14)]) empty_world.

(** The write of the status fails. *)
Definition world_stuck : World :=
  run (three_keys_stored ++ [Resume 0 commit_raises]) empty_world.

(** Scenario B: a request for five keys is accepted; in its job the third
    key write fails, and nothing else does. *)
Definition world_B_accepted : World :=
  (post_validators 5 fee_sample "req-1" (Ok 10) (Ok ()) empty_world).2.

Definition env_B : JobEnv :=
  mkJobEnv (λ j, Ok ("k" ++ pretty j))
           (λ j, if decide (j = 2%nat) then Raise (SQLAlchemyError "disk I/O error")
                 else Ok (Z.of_nat j + 11))
           (Ok ()) (Ok 20).

(** The second key write fails, and then the commit of the status. *)
Definition env_double_fault : JobEnv :=
  mkJobEnv (λ j, Ok ("k" ++ pretty j))
           (λ j, if decide (j = 1%nat) then Raise (SQLAlchemyError "disk I/O error")
                 else Ok (Z.of_nat j + 11))
           (Ok ()) (Raise (SQLAlchemyError "database is locked")).




(** The format that the docstring and the error message of
    [validate_ethereum_address] name: "0x" followed by 40 hexadecimal
    characters, and nothing else. *)
Definition is_ethereum_address (v : string) : bool :=
  match v with
  | String c0 (String c1 s) =>
      Ascii.eqb c0 "0" && Ascii.eqb c1 "x" &&
      (String.length s =? 40)%nat && forallb models.is_hex (list_ascii_of_string s)
  | _ => false
  end.

Definition newline : string := String "010"%char EmptyString.

(** [fee_sample] with a line feed after it. *)
Definition fee_newline : string := fee_sample ++ newline.

(* ===================================================================== *)
(** ** Reading and writing the tables *)
(* ===================================================================== *)

Ltac unfold_M :=
  unfold update_request_status, commit_status, commit_key, commit_request,
    generate_key, session_execute, try_except, bind, ret, raise, logger,
    get_db, put_db in *;
  simpl in *.

Section Selects.
Context (rid rid' : string) (d : Database).

Lemma select_request_insert_key k fee now :
  select_request rid' (insert_key rid k fee now d) = select_request rid' d.
Proof. done. Qed.

Lemma select_keys_insert_key k fee now :
  select_keys rid' (insert_key rid k fee now d)
  = (select_keys rid' d ++ (if decide (rid = rid') then [k] else []))%list.
Proof.
  unfold select_keys, insert_key. simpl.
  rewrite filter_app, fmap_app. f_equal.
  rewrite filter_cons, filter_nil. simpl.
  destruct (decide (rid = rid')); done.
Qed.

Lemma count_keys_insert_key k fee now :
  count_keys rid' (insert_key rid k fee now d)
  = (count_keys rid' d + (if decide (rid = rid') then 1 else 0))%nat.
Proof.
  unfold count_keys. rewrite select_keys_insert_key, length_app.
  destruct (decide (rid = rid')); done.
Qed.

Lemma select_keys_update_status st now :
  select_keys rid' (update_status rid st now d) = select_keys rid' d.
Proof. done. Qed.

Lemma select_request_update_status st now :
  select_request rid' (update_status rid st now d)
  = if decide (rid = rid') then set_status st now <$> select_request rid d
    else select_request rid' d.
Proof. unfold select_request, update_status. simpl. apply lookup_alter. Qed.

Lemma select_keys_insert_request r :
  select_keys rid' (insert_request r d) = select_keys rid' d.
Proof. done. Qed.

Lemma select_request_insert_request r :
  select_request rid' (insert_request r d)
  = if decide (request_id r = rid') then Some r else select_request rid' d.
Proof. unfold select_request, insert_request. simpl. apply lookup_insert. Qed.
End Selects.

(** A key row of a request is counted by [count_keys]. *)
Lemma count_keys_pos rid d k :
  k ∈ validator_keys d → key_request_id k = rid → (0 < count_keys rid d)%nat.
Proof.
  intros Hk Hrid. unfold count_keys, select_keys. rewrite length_fmap.
  assert (Hin : k ∈ filter (λ k, key_request_id k = rid) (validator_keys d)).
  { apply list_elem_of_filter. done. }
  destruct (filter _ _); [by apply elem_of_nil in Hin | simpl; lia].
Qed.

(* ===================================================================== *)
(** ** The invariant holds of every reachable world *)
(* ===================================================================== *)

Lemma Inv_empty : Inv empty_world.
Proof.
  split; simpl.
  - constructor.
  - intros j t H. done.
  - intros rid r H. unfold select_request in H. simpl in H. by rewrite lookup_empty in H.
  - intros k H. by apply elem_of_nil in H.
  - intros rid r H. unfold select_request in H. simpl in H. by rewrite lookup_empty in H.
Qed.

(** The invariant does not read the log. *)
Lemma Inv_log d ts l l' : Inv (mkWorld d ts l) → Inv (mkWorld d ts l').
Proof. intros [H1 H2 H3 H4 H5]. split; done. Qed.

Lemma Inv_same w w' : db w' = db w → tasks w' = tasks w → Inv w → Inv w'.
Proof.
  destruct w, w'. simpl. intros -> ->. apply Inv_log.
Qed.

Lemma fmap_rid_set_pc (ts : list Task) j t p :
  ts !! j = Some t →
  task_request_id <$> <[j := set_pc p t]> ts = task_request_id <$> ts.
Proof.
  intros Hj. rewrite list_fmap_insert. simpl.
  apply list_insert_id. by rewrite list_lookup_fmap, Hj.
Qed.

(** Two tasks of one request are one task. *)
Lemma Inv_task_inj w j j' t t' :
  Inv w → tasks w !! j = Some t → tasks w !! j' = Some t' →
  task_request_id t = task_request_id t' → j = j'.
Proof.
  intros HI Hj Hj' Heq.
  eapply NoDup_lookup; [apply (inv_nodup w HI) | |].
  - rewrite list_lookup_fmap, Hj. done.
  - rewrite list_lookup_fmap, Hj'. simpl. by rewrite Heq.
Qed.

(** Task [j] is resumed: it writes rows of its own request only and ends
    suspended where [pc_ok] holds again. *)
Lemma Inv_resume w j t d' p l' :
  Inv w → tasks w !! j = Some t →
  (∀ rid', rid' ≠ task_request_id t →
     select_request rid' d' = select_request rid' (db w) ∧
     count_keys rid' d' = count_keys rid' (db w)) →
  (∀ k, k ∈ validator_keys d' →
     k ∈ validator_keys (db w) ∨ key_request_id k = task_request_id t) →
  (∀ r, select_request (task_request_id t) (db w) = Some r →
     pc_ok (Z.to_nat (task_num_validators t))
           (count_keys (task_request_id t) (db w)) (status r) (task_pc t) →
     ∃ r', select_request (task_request_id t) d' = Some r' ∧
           num_validators r' = num_validators r ∧
           pc_ok (Z.to_nat (task_num_validators t))
                 (count_keys (task_request_id t) d') (status r') p) →
  Inv (mkWorld d' (<[j := set_pc p t]> (tasks w)) l').
Proof.
  intros HI Hj Hother Hkeys Hown.
  destruct (inv_task w HI j t Hj) as (r & Hr & Hn & Hpc).
  destruct (Hown r Hr Hpc) as (r' & Hr' & Hn' & Hpc').
  split; simpl.
  - rewrite fmap_rid_set_pc; [apply (inv_nodup w HI) | done].
  - intros j' t' Hj'.
    destruct (decide (j = j')) as [<-|Hne].
    + rewrite list_lookup_insert_eq in Hj'; [|by eapply lookup_lt_Some].
      injection Hj' as <-. simpl. exists r'. split; [done|]. split; [congruence|done].
    + rewrite list_lookup_insert_ne in Hj'; [|done].
      assert (task_request_id t' ≠ task_request_id t) as Hrid.
      { intros Heq. apply Hne. eapply Inv_task_inj; eauto. }
      destruct (Hother _ Hrid) as [-> ->].
      apply (inv_task w HI j' t' Hj').
  - intros rid r0 Hr0 Hnot. rewrite fmap_rid_set_pc in Hnot; [|done].
    assert (rid ≠ task_request_id t) as Hrid.
    { intros ->. apply Hnot. apply list_elem_of_fmap. exists t. split; [done|].
      by eapply list_elem_of_lookup_2. }
    destruct (Hother _ Hrid) as [Hs Hc]. rewrite Hs in Hr0. rewrite Hc.
    by apply (inv_orphan w HI).
  - intros k Hk. destruct (Hkeys k Hk) as [Hold | Hnew].
    + destruct (decide (key_request_id k = task_request_id t)) as [->|Hne]; [by eexists|].
      destruct (Hother _ Hne) as [-> _]. by apply (inv_key w HI).
    + rewrite Hnew. by eexists.
  - intros rid r0 Hr0.
    destruct (decide (rid = task_request_id t)) as [->|Hne].
    + rewrite Hr' in Hr0. injection Hr0 as <-. rewrite Hn'. by apply (inv_positive w HI _ _ Hr).
    + destruct (Hother _ Hne) as [Hs _]. rewrite Hs in Hr0. by apply (inv_positive w HI _ _ Hr0).
Qed.

Lemma Inv_resume_pc w j t p l' :
  Inv w → tasks w !! j = Some t →
  (∀ c st, pc_ok (Z.to_nat (task_num_validators t)) c st (task_pc t) →
           pc_ok (Z.to_nat (task_num_validators t)) c st p) →
  Inv (mkWorld (db w) (<[j := set_pc p t]> (tasks w)) l').
Proof.
  intros HI Hj Hpc. eapply Inv_resume; eauto.
Qed.

Lemma Inv_resume_key w j t k now p l' :
  Inv w → tasks w !! j = Some t →
  (∀ c st, pc_ok (Z.to_nat (task_num_validators t)) c st (task_pc t) →
           pc_ok (Z.to_nat (task_num_validators t)) (c + 1) st p) →
  Inv (mkWorld (insert_key (task_request_id t) k (task_fee_recipient t) now (db w))
               (<[j := set_pc p t]> (tasks w)) l').
Proof.
  intros HI Hj Hpc. eapply Inv_resume; [exact HI | exact Hj | | |].
  - intros rid' Hne. rewrite select_request_insert_key, count_keys_insert_key.
    rewrite decide_False; [|done]. split; [done|lia].
  - intros k0 Hk0. unfold insert_key in Hk0. simpl in Hk0.
    apply elem_of_app in Hk0 as [?|Hk0]; [by left|].
    apply list_elem_of_singleton in Hk0 as ->. by right.
  - intros r Hr Hok. exists r. rewrite select_request_insert_key, count_keys_insert_key.
    rewrite decide_True; [|done]. eauto.
Qed.

Lemma Inv_resume_status w j t st now p l' :
  Inv w → tasks w !! j = Some t →
  (∀ c st0, pc_ok (Z.to_nat (task_num_validators t)) c st0 (task_pc t) →
            pc_ok (Z.to_nat (task_num_validators t)) c st p) →
  Inv (mkWorld (update_status (task_request_id t) st now (db w))
               (<[j := set_pc p t]> (tasks w)) l').
Proof.
  intros HI Hj Hpc. eapply Inv_resume; [exact HI | exact Hj | | |].
  - intros rid' Hne. rewrite select_request_update_status.
    rewrite decide_False; [|done]. done.
  - intros k0 Hk0. by left.
  - intros r Hr Hok. exists (set_status st now r).
    rewrite select_request_update_status, decide_True, Hr; [|done].
    split; [done|]. split; [done|]. simpl. eauto.
Qed.

Lemma pc_ok_loop_head N i st n :
  N = Z.to_nat n → (i ≤ N)%nat → st = "started" → pc_ok N i st (loop_head i n).
Proof.
  intros -> Hi ->. unfold loop_head. case_bool_decide; simpl; [done|].
  split; [lia|done].
Qed.

(** Resuming a task keeps the invariant. *)
Lemma Inv_resume_step w j o : Inv w → Inv (resume j o w).
Proof.
  intros HI. unfold resume.
  destruct (tasks w !! j) as [t|] eqn:Hj; [|done].
  unfold task_step.
  destruct (task_pc t) as [|i|i k|s|s loaded|] eqn:Hpc.
  - unfold_M. eapply Inv_resume_pc; [exact HI | exact Hj |]. rewrite Hpc. simpl.
    intros c st [-> ->]. apply pc_ok_loop_head; [done|lia|done].
  - destruct o as [[k|e] oc oe]; unfold_M.
    + eapply Inv_resume_pc; [exact HI | exact Hj |]. rewrite Hpc. done.
    + eapply Inv_resume_pc; [exact HI | exact Hj |]. rewrite Hpc. simpl. intros c st (-> & ? & ->). done.
  - destruct o as [og [now|e] oe]; unfold_M.
    + eapply Inv_resume_key; [exact HI | exact Hj |]. rewrite Hpc. simpl.
      intros c st (-> & ? & ->). replace (i + 1)%nat with (S i) by lia.
      apply pc_ok_loop_head; [done|lia|done].
    + eapply Inv_resume_pc; [exact HI | exact Hj |]. rewrite Hpc. simpl. intros c st (-> & ? & ->). done.
  - destruct o as [og oc [[]|e]]; unfold_M.
    + destruct (select_request (task_request_id t) (db w)) eqn:Hr; simpl.
      * eapply Inv_resume_pc; [exact HI | exact Hj |]. rewrite Hpc. done.
      * destruct s; simpl; (eapply Inv_resume_pc; [exact HI | exact Hj |]); rewrite Hpc; simpl;
          intros c st [? ->]; left; (split; [done|lia]).
    + destruct s; simpl; (eapply Inv_resume_pc; [exact HI | exact Hj |]); rewrite Hpc; simpl;
        intros c st [? ->]; left; (split; [done|lia]).
  - destruct o as [og [now|e] oe]; unfold_M.
    + destruct s; simpl; case_decide; simpl;
        first [ eapply Inv_resume_pc; [exact HI | exact Hj |]; rewrite Hpc; simpl;
                intros c st [? ->]; left; (split; [done|lia])
              | eapply Inv_resume_status; [exact HI | exact Hj |]; rewrite Hpc; simpl;
                intros c st [? ->]; auto ].
    + destruct s; simpl; (eapply Inv_resume_pc; [exact HI | exact Hj |]); rewrite Hpc; simpl;
        intros c st [? ->]; left; (split; [done|lia]).
  - unfold_M. eapply Inv_resume_pc; [exact HI | exact Hj |]. rewrite Hpc. done.
Qed.

(** What a POST does to the database and the tasks: nothing, or a new
    request row, with or without its task. *)
Lemma post_validators_effect n fee uuid4 oc orf w :
  let w' := (post_validators n fee uuid4 oc orf w).2 in
  (db w' = db w ∧ tasks w' = tasks w) ∨
  (∃ now, oc = Ok now ∧ 0 < n ∧ select_request uuid4 (db w) = None ∧
          db w' = insert_request (mkValidatorRequest uuid4 n fee "started" now now) (db w) ∧
          (tasks w' = tasks w ∨
           tasks w' = (tasks w ++ [mkTask uuid4 n fee Created])%list)).
Proof.
  unfold post_validators, models.validate, models.validate_ethereum_address.
  case_bool_decide as Hn; [|left; done].
  destruct (models.re_match_pattern fee); [|left; done].
  unfold create_validator_request, spawn_validator_task. simpl.
  destruct oc as [now|e]; unfold_M; [|left; done].
  destruct (select_request uuid4 (db w)) eqn:Hsel; simpl; [left; done|].
  right. exists now. destruct orf as [[]|e]; simpl; auto 10.
Qed.

Lemma Inv_insert_request d ts l uuid4 n fee now :
  Inv (mkWorld d ts l) → 0 < n → select_request uuid4 d = None →
  Inv (mkWorld (insert_request (mkValidatorRequest uuid4 n fee "started" now now) d) ts l).
Proof.
  intros HI Hn Hnone.
  assert (Hkeys : count_keys uuid4 d = 0%nat).
  { destruct (count_keys uuid4 d) eqn:Hc; [done|]. exfalso.
    unfold count_keys, select_keys in Hc. rewrite length_fmap in Hc.
    destruct (filter _ _) as [|k ks] eqn:Hf; [done|].
    assert (Hk : k ∈ filter (λ k, key_request_id k = uuid4) (validator_keys d)).
    { rewrite Hf. left. }
    apply list_elem_of_filter in Hk as [Hrid Hk].
    destruct (inv_key _ HI k Hk) as [r Hr]. simpl in Hr. congruence. }
  split; simpl.
  - apply (inv_nodup _ HI).
  - intros j t Hj. destruct (inv_task _ HI j t Hj) as (r & Hr & Hrest). simpl in *.
    exists r. rewrite select_request_insert_request. simpl.
    rewrite decide_False; [done|]. congruence.
  - intros rid r. rewrite select_request_insert_request. simpl.
    destruct (decide (uuid4 = rid)) as [<-|Hne].
    + intros [= <-] _. done.
    + apply (inv_orphan _ HI).
  - intros k Hk. rewrite select_request_insert_request. simpl.
    case_decide; [by eexists|]. by apply (inv_key _ HI).
  - intros rid r. rewrite select_request_insert_request. simpl.
    case_decide; [by intros [= <-]|]. apply (inv_positive _ HI).
Qed.

Lemma Inv_spawn d ts l r :
  Inv (mkWorld d ts l) → select_request (request_id r) d = Some r →
  request_id r ∉ task_request_id <$> ts →
  Inv (mkWorld d (ts ++ [mkTask (request_id r) (num_validators r) (fee_recipient r) Created]) l).
Proof.
  intros HI Hr Hnot.
  destruct (inv_orphan _ HI _ _ Hr Hnot) as [Hst Hc]. simpl in *.
  split; simpl.
  - rewrite fmap_app. simpl. apply NoDup_app. split; [apply (inv_nodup _ HI)|].
    split; [|apply NoDup_singleton].
    intros x Hx Hx'. apply list_elem_of_singleton in Hx' as ->. done.
  - intros j t Hj. apply lookup_app_Some in Hj as [Hj | [_ Hj]].
    + apply (inv_task _ HI j t Hj).
    + apply list_lookup_singleton_Some in Hj as [_ <-]. simpl. exists r. done.
  - intros rid r0 Hr0 Hnot0. apply (inv_orphan _ HI _ _ Hr0). simpl.
    intros Hin. apply Hnot0. rewrite fmap_app. apply elem_of_app. by left.
  - apply (inv_key _ HI).
  - apply (inv_positive _ HI).
Qed.

(** Every event keeps the invariant. *)
Lemma Inv_step w ev : Inv w → Inv (system_step w ev).
Proof.
  intros HI. destruct ev as [n fee uuid4 oc orf | rid oe1 oe2 | oe | j o]; simpl.
  - pose proof (post_validators_effect n fee uuid4 oc orf w) as Heff. simpl in Heff.
    destruct (post_validators n fee uuid4 oc orf w) as [res w'] eqn:Hpost. simpl in *.
    destruct Heff as [[Hd Ht] | (now & -> & Hn & Hnone & Hd & Ht)].
    + by eapply Inv_same.
    + destruct w as [d ts l], w' as [d' ts' l']. simpl in *. subst d'.
      apply (Inv_log _ _ l). 
      pose proof (Inv_insert_request _ _ _ uuid4 n fee now HI Hn Hnone) as HI'.
      destruct Ht as [-> | ->]; [done|].
      apply (Inv_spawn _ _ _ (mkValidatorRequest uuid4 n fee "started" now now)); [done|..].
      * rewrite select_request_insert_request. simpl. by rewrite decide_True.
      * simpl. intros Hin. apply list_elem_of_fmap in Hin as (t & Hrid & Ht).
        apply list_elem_of_lookup in Ht as [j Hj].
        destruct (inv_task _ HI j t Hj) as (r & Hr & _). simpl in Hr. congruence.
  - eapply Inv_same; [| |exact HI].
    + unfold get_validator_status. unfold_M.
      destruct oe1 as [[]|]; simpl; [|done].
      destruct (select_request rid (db w)); simpl; [|done].
      repeat case_bool_decide; simpl; try done. destruct oe2 as [[]|]; done.
    + unfold get_validator_status. unfold_M.
      destruct oe1 as [[]|]; simpl; [|done].
      destruct (select_request rid (db w)); simpl; [|done].
      repeat case_bool_decide; simpl; try done. destruct oe2 as [[]|]; done.
  - eapply Inv_same; [| |exact HI]; unfold health_check; unfold_M;
      destruct oe as [[]|]; done.
  - by apply Inv_resume_step.
Qed.

Lemma Inv_run evs w : Inv w → Inv (run evs w).
Proof.
  revert w. induction evs as [|ev evs IH]; intros w HI; [done|].
  simpl. apply IH. by apply Inv_step.
Qed.

Lemma Inv_reachable w : reachable w → Inv w.
Proof. intros [evs ->]. apply Inv_run, Inv_empty. Qed.

(* ===================================================================== *)
(** ** Key counts and statuses *)
(* ===================================================================== *)

Lemma pc_ok_summary N c st p :
  pc_ok N c st p →
  (c ≤ N)%nat ∧ (st = "successful" → c = N) ∧ (st = "failed" → (c < N)%nat) ∧
  (st = "started" ∨ st = "successful" ∨ st = "failed").
Proof.
  destruct p as [|i|i k|[]|[]|]; simpl.
  all: try (intros [-> ->]; repeat split; (lia || done || auto)).
  all: try (intros (-> & ? & ->); repeat split; (lia || done || auto)).
  all: try (intros (? & ->); repeat split; (lia || done || auto)).
  intros [[-> ?] | [[-> ->] | [-> ?]]]; repeat split; (lia || done || auto).
Qed.

(** A request is the request of a task, or it has no task at all. *)
Lemma Inv_request w rid r :
  Inv w → select_request rid (db w) = Some r →
  (∃ j t, tasks w !! j = Some t ∧ task_request_id t = rid ∧
          num_validators r = task_num_validators t ∧
          pc_ok (Z.to_nat (num_validators r)) (count_keys rid (db w)) (status r) (task_pc t)) ∨
  ((rid ∉ task_request_id <$> tasks w) ∧ status r = "started" ∧ count_keys rid (db w) = 0%nat).
Proof.
  intros HI Hr.
  destruct (decide (rid ∈ task_request_id <$> tasks w)) as [Hin | Hnot].
  - left. apply list_elem_of_fmap in Hin as (t & -> & Ht).
    apply list_elem_of_lookup in Ht as [j Hj]. exists j, t.
    destruct (inv_task w HI j t Hj) as (r' & Hr' & Hn & Hpc).
    rewrite Hr in Hr'. injection Hr' as <-. rewrite Hn. done.
  - right. split; [done|]. by apply (inv_orphan w HI).
Qed.

(** C1 (amended).  For every request of a reachable world with
    [num_validators = n > 0], at every moment and so once its job has
    finished: the request holds at most [n] keys; it holds exactly [n] when
    its status is "successful"; it holds fewer than [n] when its status is
    "failed"; and its status is one of the three.  (That [n] keys make the
    status "successful" is not claimed: see
    [keys_iff_successful_counterexample].) *)
Theorem key_count_matches_status (w : World) (rid : string) (r : ValidatorRequest) :
  reachable w →
  select_request rid (db w) = Some r →
  0 < num_validators r →
  (Z.of_nat (count_keys rid (db w)) ≤ num_validators r)%Z ∧
  (status r = "successful" → Z.of_nat (count_keys rid (db w)) = num_validators r) ∧
  (status r = "failed" → (Z.of_nat (count_keys rid (db w)) < num_validators r)%Z) ∧
  (status r = "started" ∨ status r = "successful" ∨ status r = "failed").
Proof.
  intros Hreach Hr Hn. apply Inv_reachable in Hreach.
  destruct (Inv_request w rid r Hreach Hr)
    as [(j & t & _ & _ & _ & Hpc) | (_ & Hst & Hc)].
  - apply pc_ok_summary in Hpc as (Hle & Hs & Hf & Hst).
    repeat split; [lia | | | done].
    + intros H. apply Hs in H. lia.
    + intros H. apply Hf in H. lia.
  - rewrite Hc, Hst. repeat split; (lia || done || auto).
Qed.

(* ===================================================================== *)
(** ** What a finished job leaves is never touched again *)
(* ===================================================================== *)

Ltac task_step_case Hpc :=
  first [ done | by left | rewrite Hpc; done
        | solve [right; left; eauto] | solve [right; right; eauto] ].

(** One resumption writes at most one row, of the task's own request, and a
    finished task writes nothing. *)
Lemma task_step_effect o t w :
  ∃ p w', task_step o t w = (Ok p, w') ∧ tasks w' = tasks w ∧
    (db w' = db w ∨
     (∃ k now, db w' = insert_key (task_request_id t) k (task_fee_recipient t) now (db w)) ∨
     (∃ st now, db w' = update_status (task_request_id t) st now (db w))) ∧
    (task_pc t = Finished → p = Finished ∧ db w' = db w).
Proof.
  assert (Hsolve : ∀ p w', tasks w' = tasks w →
            (db w' = db w ∨
             (∃ k now, db w' = insert_key (task_request_id t) k (task_fee_recipient t) now (db w)) ∨
             (∃ st now, db w' = update_status (task_request_id t) st now (db w))) →
            (task_pc t = Finished → p = Finished ∧ db w' = db w) →
            ∃ p0 w0, (Ok p, w') = (Ok p0, w0) ∧ tasks w0 = tasks w ∧
              (db w0 = db w ∨
               (∃ k now, db w0 = insert_key (task_request_id t) k (task_fee_recipient t) now (db w)) ∨
               (∃ st now, db w0 = update_status (task_request_id t) st now (db w))) ∧
              (task_pc t = Finished → p0 = Finished ∧ db w0 = db w)).
  { intros p w' H1 H2 H3. exists p, w'. done. }
  unfold task_step.
  destruct (task_pc t) as [|i|i k|s|s|] eqn:Hpc.
  - unfold_M. apply Hsolve; simpl; task_step_case Hpc.
  - destruct o as [[k|e] oc oe]; unfold_M; apply Hsolve; simpl; task_step_case Hpc.
  - destruct o as [og [now|e] oe]; unfold_M; apply Hsolve; simpl; task_step_case Hpc.
  - destruct o as [og oc [[]|e]]; unfold_M.
    + destruct (select_request (task_request_id t) (db w)); simpl.
      * apply Hsolve; simpl; task_step_case Hpc.
      * destruct s; simpl; apply Hsolve; simpl; task_step_case Hpc.
    + destruct s; simpl; apply Hsolve; simpl; task_step_case Hpc.
  - destruct o as [og [now|e] oe]; unfold_M; destruct s; simpl; try case_decide; simpl;
      apply Hsolve; simpl; task_step_case Hpc.
  - unfold_M. apply Hsolve; simpl; task_step_case Hpc.
Qed.

Section Stable.
Context (rid : string).

Lemma resume_stable w j o :
  job_over rid w →
  select_request rid (db (resume j o w)) = select_request rid (db w) ∧
  select_keys rid (db (resume j o w)) = select_keys rid (db w) ∧
  job_over rid (resume j o w).
Proof.
  intros Hover. unfold resume.
  destruct (tasks w !! j) as [t|] eqn:Hj; [|done].
  destruct (task_step_effect o t w) as (p & w' & -> & Ht & Hdb & Hfin). simpl.
  assert (Htasks : job_over rid (mkWorld (db w') (<[j := set_pc p t]> (tasks w')) (log w'))).
  { intros j' t' Hj' Hrid. simpl in Hj'. rewrite Ht in Hj'.
    destruct (decide (j = j')) as [<-|Hne].
    - rewrite list_lookup_insert_eq in Hj'; [|by eapply lookup_lt_Some].
      injection Hj' as <-. simpl in *. apply Hfin. by eapply Hover.
    - rewrite list_lookup_insert_ne in Hj'; [|done]. by eapply Hover. }
  split; [|split; [|done]].
  - destruct (decide (task_request_id t = rid)) as [Heq|Hne].
    + destruct (Hfin (Hover j t Hj Heq)) as [_ ->]. done.
    + destruct Hdb as [-> | [(k & now & ->) | (st & now & ->)]]; [done..|].
      rewrite select_request_update_status. by rewrite decide_False.
  - destruct (decide (task_request_id t = rid)) as [Heq|Hne].
    + destruct (Hfin (Hover j t Hj Heq)) as [_ ->]. done.
    + destruct Hdb as [-> | [(k & now & ->) | (st & now & ->)]]; [done| |done].
      rewrite select_keys_insert_key, decide_False; [|done]. apply app_nil_r.
Qed.

Lemma step_stable w ev r :
  select_request rid (db w) = Some r → job_over rid w →
  select_request rid (db (system_step w ev)) = Some r ∧
  select_keys rid (db (system_step w ev)) = select_keys rid (db w) ∧
  job_over rid (system_step w ev).
Proof.
  intros Hr Hover.
  destruct ev as [n fee uuid4 oc orf | rid' oe1 oe2 | oe | j o]; simpl.
  - pose proof (post_validators_effect n fee uuid4 oc orf w) as Heff. simpl in Heff.
    destruct (post_validators n fee uuid4 oc orf w) as [res w'] eqn:Hpost. simpl in *.
    destruct Heff as [[Hd Ht] | (now & -> & Hn & Hnone & Hd & Ht)].
    + rewrite Hd. split; [done|]. split; [done|]. unfold job_over. by rewrite Ht.
    + assert (uuid4 ≠ rid) as Hne by congruence.
      rewrite Hd, select_request_insert_request, select_keys_insert_request. simpl.
      rewrite decide_False; [|done]. split; [done|]. split; [done|].
      intros j t Hj Hrid. destruct Ht as [Ht | Ht]; rewrite Ht in Hj.
      * by eapply Hover.
      * apply lookup_app_Some in Hj as [Hj | [_ Hj]]; [by eapply Hover|].
        apply list_lookup_singleton_Some in Hj as [_ <-]. done.
  - assert (db (get_validator_status oe1 oe2 rid' w).2 = db w ∧
            tasks (get_validator_status oe1 oe2 rid' w).2 = tasks w) as [Hd Ht].
    { unfold get_validator_status. unfold_M.
      destruct oe1 as [[]|]; simpl; [|done].
      destruct (select_request rid' (db w)); simpl; [|done].
      repeat case_bool_decide; simpl; try done. destruct oe2 as [[]|]; done. }
    rewrite Hd. unfold job_over. rewrite Ht. done.
  - assert (db (health_check oe w).2 = db w ∧
            tasks (health_check oe w).2 = tasks w) as [Hd Ht].
    { unfold health_check; unfold_M; destruct oe as [[]|]; done. }
    rewrite Hd. unfold job_over. rewrite Ht. done.
  - destruct (resume_stable w j o Hover) as (H1 & H2 & H3). rewrite H1. done.
Qed.

Lemma run_stable evs w r :
  select_request rid (db w) = Some r → job_over rid w →
  select_request rid (db (run evs w)) = Some r ∧
  select_keys rid (db (run evs w)) = select_keys rid (db w) ∧
  job_over rid (run evs w).
Proof.
  revert w. induction evs as [|ev evs IH]; intros w Hr Hover; [done|].
  simpl. destruct (step_stable w ev r Hr Hover) as (H1 & H2 & H3).
  destruct (IH _ H1 H3) as (H4 & H5 & H6). rewrite H5, H2. done.
Qed.
End Stable.

(** The response to a GET is read off the request row and the key rows of
    the request. *)
Lemma get_validator_status_reads oe1 oe2 rid w w' :
  select_request rid (db w') = select_request rid (db w) →
  select_keys rid (db w') = select_keys rid (db w) →
  (get_validator_status oe1 oe2 rid w').1 = (get_validator_status oe1 oe2 rid w).1.
Proof.
  intros Hr Hk. unfold get_validator_status. unfold_M.
  destruct oe1 as [[]|]; simpl; [|done]. rewrite Hr.
  destruct (select_request rid (db w)); simpl; [|done].
  repeat case_bool_decide; simpl; try done.
  destruct oe2 as [[]|]; simpl; [|done]. by rewrite Hk.
Qed.

(** A request whose status is terminal belongs to a job that is over. *)
Lemma terminal_job_over w rid r :
  Inv w → select_request rid (db w) = Some r → terminal (status r) → job_over rid w.
Proof.
  intros HI Hr Hterm j t Hj Hrid.
  destruct (inv_task w HI j t Hj) as (r' & Hr' & _ & Hpc).
  rewrite Hrid, Hr in Hr'. injection Hr' as <-.
  destruct (task_pc t) as [|i|i k|[]|[]|]; simpl in Hpc; try done.
  all: assert (status r = "started") as Hst by (by destruct_and?).
  all: destruct Hterm as [Hterm | Hterm]; congruence.
Qed.

(** C3.  Once the status of a request of a reachable world is "successful"
    or "failed", whatever happens next ([evs]) leaves the request row as it
    is, so its status never changes again, and a GET for it answers what it
    answered before: the same status and the same key list. *)
Theorem terminal_status_is_stable (w : World) (evs : list event)
    (rid : string) (r : ValidatorRequest) :
  reachable w →
  select_request rid (db w) = Some r →
  terminal (status r) →
  select_request rid (db (run evs w)) = Some r ∧
  select_keys rid (db (run evs w)) = select_keys rid (db w) ∧
  ∀ oe1 oe2, (get_validator_status oe1 oe2 rid (run evs w)).1
             = (get_validator_status oe1 oe2 rid w).1.
Proof.
  intros Hreach Hr Hterm. apply Inv_reachable in Hreach.
  pose proof (terminal_job_over w rid r Hreach Hr Hterm) as Hover.
  destruct (run_stable rid evs w r Hr Hover) as (H1 & H2 & _).
  split; [done|]. split; [done|].
  intros oe1 oe2. apply get_validator_status_reads; [congruence|done].
Qed.

(* ===================================================================== *)
(** ** The scenarios *)
(* ===================================================================== *)

Lemma world_stuck_facts :
  reachable world_stuck ∧
  select_request "req-1" (db world_stuck)
    = Some (mkValidatorRequest "req-1" 3 fee_sample "started" 10 10) ∧
  count_keys "req-1" (db world_stuck) = 3%nat ∧
  tasks world_stuck = [mkTask "req-1" 3 fee_sample Finished].
Proof.
  split; [by eexists|]. split; [|split]; vm_compute; reflexivity.
Qed.

Lemma world_stuck_job_over : job_over "req-1" world_stuck.
Proof.
  destruct world_stuck_facts as (_ & _ & _ & Ht).
  intros j t Hj _. rewrite Ht in Hj.
  apply list_lookup_singleton_Some in Hj as [_ <-]. done.
Qed.

(** C1, as stated, fails: when the job of a request for [n] keys has
    finished, holding [n] keys is not the same as having the status
    "successful".  In [world_stuck] the job of "req-1" has finished, its 3
    keys are stored, and the status is "started". *)
Lemma keys_iff_successful_counterexample :
  ¬ (∀ w rid r, reachable w → select_request rid (db w) = Some r →
       (0 < num_validators r)%Z →
       (∃ j t, tasks w !! j = Some t ∧ task_request_id t = rid ∧ task_pc t = Finished) →
       (Z.of_nat (count_keys rid (db w)) = num_validators r ↔ status r = "successful")).
Proof.
  intros H.
  destruct world_stuck_facts as (Hreach & Hr & Hc & Ht).
  destruct (H world_stuck "req-1" _ Hreach Hr) as [Himp _].
  - simpl. lia.
  - exists 0%nat, (mkTask "req-1" 3 fee_sample Finished). rewrite Ht. done.
  - rewrite Hc in Himp. simpl in Himp. by specialize (Himp eq_refl).
Qed.

(** [key_count_matches_status] at scenario A. *)
Lemma key_count_matches_status_witness :
  (Z.of_nat (count_keys "req-1" (db world_A)) ≤ 3)%Z ∧
  ("successful" = "successful" → Z.of_nat (count_keys "req-1" (db world_A)) = 3) ∧
  ("successful" = "failed" → (Z.of_nat (count_keys "req-1" (db world_A)) < 3)%Z) ∧
  ("successful" = "started" ∨ "successful" = "successful" ∨ "successful" = "failed").
Proof.
  apply (key_count_matches_status world_A "req-1"
           (mkValidatorRequest "req-1" 3 fee_sample "successful" 10 14)).
  - by eexists.
  - vm_compute. reflexivity.
  - simpl. lia.
Defined.

(** [terminal_status_is_stable] at scenario A, followed by a poll, a
    resumption of the finished task, a POST that reuses the id, and a second
    request with its job. *)
Lemma terminal_status_is_stable_witness :
  let later := [ Get "req-1" (Ok ()) (Ok ());
                 Resume 0 (answers "k3" 15);
                 Post 3 fee_sample "req-1" (Ok 16) (Ok ());
                 Post 2 fee_sample "req-2" (Ok 17) (Ok ());
                 Resume 1 (answers "" 18); Resume 1 (answers "k" 19);
                 Resume 1 (answers "k" 19) ] in
  let r := mkValidatorRequest "req-1" 3 fee_sample "successful" 10 14 in
  select_request "req-1" (db (run later world_A)) = Some r ∧
  select_keys "req-1" (db (run later world_A)) = select_keys "req-1" (db world_A) ∧
  ∀ oe1 oe2, (get_validator_status oe1 oe2 "req-1" (run later world_A)).1
             = (get_validator_status oe1 oe2 "req-1" world_A).1.
Proof.
  apply (terminal_status_is_stable world_A).
  - by eexists.
  - vm_compute. reflexivity.
  - by left.
Defined.

(* ===================================================================== *)
(** ** The status update *)
(* ===================================================================== *)

Lemma update_request_status_never_raises oe oc rid st w :
  (update_request_status oe oc rid st w).1 = Ok ().
Proof.
  unfold_M. destruct oe as [[]|e]; simpl; [|done].
  destruct (select_request rid (db w)); simpl; [|done].
  destruct oc; simpl; [case_decide|]; done.
Qed.

(** A status update whose SELECT or whose commit raises writes nothing. *)
Lemma update_request_status_fault oe oc rid st w :
  (∃ e, oe = Raise e) ∨ (∃ e, oc = Raise e) →
  db (update_request_status oe oc rid st w).2 = db w ∧
  tasks (update_request_status oe oc rid st w).2 = tasks w.
Proof.
  intros [[e ->] | [e ->]]; unfold_M; [done|].
  destruct oe as [[]|e']; simpl; [|done].
  destruct (select_request rid (db w)); done.
Qed.

Lemma process_validator_creation_never_raises env rid n fee w :
  (process_validator_creation env rid n fee w).1 = Ok ().
Proof.
  unfold process_validator_creation, try_except, bind at 1.
  destruct (logger INFO _ w) as [[[]|e] w0] eqn:Hlog.
  - unfold bind at 1.
    destruct (for_range env rid fee 0 (Z.to_nat n) w0) as [[f|e] w1]; simpl.
    + destruct f.
      * unfold bind.
        pose proof (update_request_status_never_raises
                      (status_execute_result env) (status_commit_result env)
                      rid "successful" w1) as Hup.
        destruct (update_request_status _ _ _ _ w1) as [[[]|e] w2]; simpl in *; done.
      * done.
    + unfold bind, logger. simpl. apply update_request_status_never_raises.
  - unfold bind, logger. simpl. apply update_request_status_never_raises.
Qed.




(** C7, as stated, fails: a status update with the status the row has
    already does not touch [updated_at].  In scenario A the request is
    "successful" since time 14; an update to "successful" that goes through
    at time 99 leaves [updated_at] at 14. *)
Lemma updated_at_overwritten_counterexample :
  ¬ (∀ w rid st now r r',
       select_request rid (db w) = Some r →
       select_request rid (db (update_request_status (Ok ()) (Ok now) rid st w).2)
       = Some r' →
       status r' = st ∧ updated_at r' = now).
Proof.
  intros H.
  destruct (H world_A "req-1" "successful" 99
              (mkValidatorRequest "req-1" 3 fee_sample "successful" 10 14)
              (mkValidatorRequest "req-1" 3 fee_sample "successful" 10 14))
    as [_ Hat].
  - vm_compute. reflexivity.
  - vm_compute. reflexivity.
  - simpl in Hat. lia.
Qed.

(** C10.  [update_request_status] never raises, whatever its SELECT and its
    commit do, and a status commit that raises leaves the tables as they
    were; hence [process_validator_creation] never raises.  In
    [world_stuck], which is reachable, the three keys of "req-1" are stored,
    its job has finished, and whatever happens afterwards the request keeps
    the status "started" and its three keys. *)
Theorem status_write_failure_is_swallowed :
  (∀ oe oc rid st w, (update_request_status oe oc rid st w).1 = Ok ()) ∧
  (∀ oe e rid st w, db (update_request_status oe (Raise e) rid st w).2 = db w) ∧
  (∀ env rid n fee w, (process_validator_creation env rid n fee w).1 = Ok ()) ∧
  reachable world_stuck ∧
  job_over "req-1" world_stuck ∧
  (∀ evs,
    status <$> select_request "req-1" (db (run evs world_stuck)) = Some "started" ∧
    num_validators <$> select_request "req-1" (db (run evs world_stuck)) = Some 3 ∧
    select_keys "req-1" (db (run evs world_stuck)) = ["k0"; "k1"; "k2"]).
Proof.
  split; [apply update_request_status_never_raises|].
  split; [intros; apply update_request_status_fault; eauto|].
  split; [apply process_validator_creation_never_raises|].
  destruct world_stuck_facts as (Hreach & Hr & Hc & Ht).
  split; [done|]. split; [apply world_stuck_job_over|].
  intros evs.
  destruct (run_stable "req-1" evs world_stuck _ Hr world_stuck_job_over)
    as (-> & -> & _).
  repeat split.
Qed.

(* ===================================================================== *)
(** ** The handlers *)
(* ===================================================================== *)

(** C4.  When the commit of the new request row raises [e], the handler
    raises [e] itself to its caller, and the tables and the tasks are as
    before: no row, no job.  The same holds when the commit is refused
    because the id is taken. *)
Theorem create_validator_request_commit_failure (uuid4 : string) (orf : result unit)
    (request : models.CreateValidatorRequest) (w : World) :
  (∀ e, (create_validator_request uuid4 (Raise e) orf request w).1 = Raise e ∧
        db (create_validator_request uuid4 (Raise e) orf request w).2 = db w ∧
        tasks (create_validator_request uuid4 (Raise e) orf request w).2 = tasks w) ∧
  (∀ now r, select_request uuid4 (db w) = Some r →
        (∃ e, (create_validator_request uuid4 (Ok now) orf request w).1 = Raise e) ∧
        db (create_validator_request uuid4 (Ok now) orf request w).2 = db w ∧
        tasks (create_validator_request uuid4 (Ok now) orf request w).2 = tasks w).
Proof.
  split.
  - intros e. unfold create_validator_request. unfold_M. done.
  - intros now r Hr. unfold create_validator_request. unfold_M. rewrite Hr. simpl.
    split; [by eexists|done].
Qed.

(** C6.  What a GET answers when the SELECT of the request goes through:
    404 when there is no such request; the status alone when the status is
    "started"; the status and the generic message, without keys, when the
    status is "failed".  The handler writes nothing. *)
Theorem get_validator_status_of_stored_request (rid : string) (oe2 : result unit)
    (w : World) :
  (select_request rid (db w) = None →
   (get_validator_status (Ok ()) oe2 rid w).1 = Raise (HTTPException 404 "Request not found")) ∧
  (∀ r, select_request rid (db w) = Some r → status r = "started" →
   (get_validator_status (Ok ()) oe2 rid w).1
   = Ok (models.mkValidatorStatusResponse "started" None None)) ∧
  (∀ r, select_request rid (db w) = Some r → status r = "failed" →
   (get_validator_status (Ok ()) oe2 rid w).1
   = Ok (models.mkValidatorStatusResponse "failed" None (Some "Error processing request"))) ∧
  db (get_validator_status (Ok ()) oe2 rid w).2 = db w.
Proof.
  unfold get_validator_status. unfold_M.
  repeat split.
  - intros ->. done.
  - intros r -> ->. done.
  - intros r -> ->. done.
  - destruct (select_request rid (db w)) as [r|]; simpl; [|done].
    repeat case_bool_decide; simpl; try done. destruct oe2; done.
Qed.

(* ===================================================================== *)
(** ** Validation *)
(* ===================================================================== *)

(** A body that does not validate never reaches the handler: the world is
    as before, without a row and without a job. *)
Lemma post_validators_rejects n fee uuid4 oc orf w :
  (n ≤ 0)%Z ∨ models.re_match_pattern fee = false →
  ∃ msg, post_validators n fee uuid4 oc orf w = (Raise (ValidationError msg), w).
Proof.
  intros H. unfold post_validators, models.validate, models.validate_ethereum_address.
  case_bool_decide as Hn.
  - destruct H as [H | ->]; [lia|]. by eexists.
  - by eexists.
Qed.

Lemma match_hex_all count s :
  String.length s = count →
  forallb models.is_hex (list_ascii_of_string s) = true →
  models.match_hex count s = Some "".
Proof.
  revert count. induction s as [|c s IH]; intros count <-; simpl; [done|].
  intros [Hc Hall]%andb_prop. rewrite Hc. by apply IH.
Qed.

(** Every address is accepted. *)
Lemma re_match_pattern_complete v :
  is_ethereum_address v = true → models.re_match_pattern v = true.
Proof.
  destruct v as [|c0 [|c1 s]]; [done..|]. unfold is_ethereum_address.
  intros [[[H0 H1]%andb_prop Hlen]%andb_prop Hall]%andb_prop.
  apply Ascii.eqb_eq in H0 as ->. apply Ascii.eqb_eq in H1 as ->.
  apply Nat.eqb_eq in Hlen.
  change (models.re_match_pattern (String "0" (String "x" s)))
    with (match models.match_hex 40 s with
          | Some s' => models.match_dollar s'
          | None => false
          end).
  by rewrite (match_hex_all 40 s Hlen Hall).
Qed.

(** C9: the failing input.  [fee_newline], 42 characters of an address and
    a line feed, is not an address, and yet a POST with it validates: the
    request row is written with it and its job is spawned. *)
Theorem newline_address_is_accepted :
  is_ethereum_address fee_newline = false ∧
  models.validate 1 fee_newline = Ok (models.mkCreateValidatorRequest 1 fee_newline) ∧
  (post_validators 1 fee_newline "req-1" (Ok 10) (Ok ()) empty_world).1
  = Ok (models.mkCreateValidatorResponse "req-1" "Validator creation in progress") ∧
  select_request "req-1"
    (db (post_validators 1 fee_newline "req-1" (Ok 10) (Ok ()) empty_world).2)
  = Some (mkValidatorRequest "req-1" 1 fee_newline "started" 10 10) ∧
  tasks (post_validators 1 fee_newline "req-1" (Ok 10) (Ok ()) empty_world).2
  = [mkTask "req-1" 1 fee_newline Created].
Proof.
  repeat split; vm_compute; reflexivity.
Qed.

(* ===================================================================== *)
(** ** One job from its start to its end *)
(* ===================================================================== *)

Ltac unfold_job :=
  unfold generate_key, commit_key, try_except, bind, ret, raise, logger,
    get_db, put_db; simpl.

Lemma update_request_status_run oe oc rid st w :
  update_request_status oe oc rid st w
  = (Ok (), (update_request_status oe oc rid st w).2).
Proof.
  pose proof (update_request_status_never_raises oe oc rid st w) as H.
  destruct (update_request_status oe oc rid st w) as [res w']. simpl in *. by subst.
Qed.

Section Job.
Context (env : JobEnv) (rid fee : string).

(** The loop stores the keys of the items that go through, in their order,
    up to the first item that does not: it ends by running out of items, by
    the generator raising out of it, or by [return] after the status
    update that follows a failed key write. *)
Lemma for_range_spec count : ∀ i w,
  ∃ m ks w1,
    (m ≤ count)%nat ∧
    (∀ j, (i ≤ j < i + m)%nat → item_ok env j) ∧
    stored w w1 ks ∧ rows_of rid fee ks ∧
    key <$> ks = generated env <$> seq i m ∧
    ((m = count ∧ for_range env rid fee i count w = (Ok Next, w1)) ∨
     ((m < count)%nat ∧ ∃ e, generate_key_result env (i + m) = Raise e ∧
        for_range env rid fee i count w = (Raise e, w1)) ∨
     ((m < count)%nat ∧ ∃ k e, generate_key_result env (i + m) = Ok k ∧
        key_commit_result env (i + m) = Raise e ∧
        for_range env rid fee i count w
        = (Ok Return,
           (update_request_status (status_execute_result env) (status_commit_result env)
                                  rid "failed" w1).2))).
Proof.
  induction count as [|count IH]; intros i w.
  - exists 0%nat, [], w. split; [lia|]. split; [intros; lia|].
    split; [by unfold stored; rewrite app_nil_r|]. split; [constructor|]. split; [done|].
    left. done.
  - simpl for_range.
    destruct (generate_key_result env i) as [k|e] eqn:Hg.
    + destruct (key_commit_result env i) as [now|e] eqn:Hc.
      * unfold_job.
        set (w' := mkWorld _ _ _).
        destruct (IH (S i) w') as (m & ks & w1 & Hm & Hok & (Hr & Hk & Ht) & Hrows & Hkeys & Hres).
        exists (S m), (mkValidatorKey (next_key_id (db w)) rid k fee now :: ks), w1.
        split; [lia|]. split.
        { intros j Hj. destruct (decide (j = i)) as [->|Hne].
          - split; by eexists.
          - apply Hok. lia. }
        split.
        { split; [done|]. split; [|done]. rewrite Hk. subst w'. simpl.
          rewrite <- app_assoc. done. }
        split; [by constructor|]. split.
        { rewrite fmap_cons. simpl seq. rewrite fmap_cons.
          f_equal; [unfold generated; by rewrite Hg | exact Hkeys]. }
        replace (i + S m)%nat with (S i + m)%nat by lia.
        destruct Hres as [[-> ->] | [[Hlt (e & He & ->)] | [Hlt (k' & e & Hk' & He & ->)]]].
        -- left. done.
        -- right. left. split; [lia|]. eauto.
        -- right. right. split; [lia|]. eauto 10.
      * exists 0%nat, [].
        eexists (mkWorld (db w) (tasks w) _).
        split; [lia|]. split; [intros; lia|].
        split; [by unfold stored; simpl; rewrite app_nil_r|]. split; [constructor|]. split; [done|].
        right. right. split; [lia|]. exists k, e. rewrite Nat.add_0_r.
        split; [done|]. split; [done|].
        unfold_job.
        rewrite update_request_status_run. simpl. reflexivity.
    + exists 0%nat, [], w. split; [lia|]. split; [intros; lia|].
      split; [by unfold stored; rewrite app_nil_r|]. split; [constructor|]. split; [done|].
      right. left. split; [lia|]. exists e. rewrite Nat.add_0_r. split; [done|].
      unfold_job. done.
Qed.
End Job.

Lemma update_request_status_keys oe oc rid st w :
  validator_keys (db (update_request_status oe oc rid st w).2) = validator_keys (db w) ∧
  tasks (update_request_status oe oc rid st w).2 = tasks w.
Proof.
  unfold_M. destruct oe as [[]|e]; simpl; [|done].
  destruct (select_request rid (db w)); simpl; [|done].
  destruct oc; simpl; [case_decide|]; done.
Qed.


Section Process.
Context (env : JobEnv) (rid : string) (n : Z) (fee : string) (w : World).

(** How a job ends: all its items went through and it updates the status
    to "successful", or item [m] is the first that did not and it updates
    the status to "failed".  Either way the keys of the items before are
    stored, in their order, and the update is the job's one write to the
    request table. *)
Lemma process_validator_creation_spec :
  ∃ m ks w1 st,
    (m ≤ Z.to_nat n)%nat ∧
    (∀ j, (j < m)%nat → item_ok env j) ∧
    stored w w1 ks ∧ rows_of rid fee ks ∧
    key <$> ks = generated env <$> seq 0 m ∧
    ((m = Z.to_nat n ∧ st = "successful") ∨
     ((m < Z.to_nat n)%nat ∧ ¬ item_ok env m ∧ st = "failed")) ∧
    db (process_validator_creation env rid n fee w).2
    = db (update_request_status (status_execute_result env) (status_commit_result env)
                                rid st w1).2 ∧
    tasks (process_validator_creation env rid n fee w).2 = tasks w.
Proof.
  unfold process_validator_creation, try_except, bind, logger, ret. simpl.
  set (w0 := mkWorld (db w) (tasks w) _).
  destruct (for_range_spec env rid fee (Z.to_nat n) 0 w0)
    as (m & ks & w1 & Hm & Hok & (Hr & Hk & Ht) & Hrows & Hkeys & Hres).
  assert (Hok' : ∀ j, (j < m)%nat → item_ok env j) by (intros; apply Hok; lia).
  simpl in Hr, Hk, Ht.
  destruct Hres as [[-> Hrun] | [[Hlt (e & He & Hrun)] | [Hlt (k & e & Hk' & He & Hrun)]]];
    rewrite Hrun; simpl.
  - exists (Z.to_nat n), ks, w1, "successful".
    do 5 (split; [done|]). split; [by left|].
    rewrite update_request_status_run. simpl.
    split; [done|]. by rewrite (proj2 (update_request_status_keys _ _ _ _ _)).
  - exists m, ks, (mkWorld (db w1) (tasks w1)
                     (log w1 ++ [(ERROR, "Error processing validator creation for request "
                                         ++ rid ++ ": " ++ str e)])), "failed".
    split; [lia|]. do 4 (split; [done|]).
    split.
    { right. split; [done|]. split; [|done]. intros [[k Hk'] _]. simpl in He. congruence. }
    split; [done|]. by rewrite (proj2 (update_request_status_keys _ _ _ _ _)).
  - exists m, ks, w1, "failed".
    split; [lia|]. do 4 (split; [done|]).
    split.
    { right. split; [done|]. split; [|done]. intros [_ [now Hnow]]. simpl in He. congruence. }
    split; [done|]. by rewrite (proj2 (update_request_status_keys _ _ _ _ _)).
Qed.
End Process.





(** C2, as stated, fails: a key write that fails does not make the request
    "failed" when the write of the status fails too.  Under
    [env_double_fault] the second key write of a request for five keys
    raises and so does the commit of the status: the job ends with one key
    row stored and the request still "started". *)
Lemma key_fault_status_counterexample :
  ¬ (∀ env rid n fee w r i,
       select_request rid (db w) = Some r → status r = "started" →
       (i < Z.to_nat n)%nat →
       (∀ j, (j < i)%nat → item_ok env j) → ¬ item_ok env i →
       status <$> select_request rid (db (process_validator_creation env rid n fee w).2)
       = Some "failed").
Proof.
  intros H.
  assert (Hfailed :
    status <$> select_request "req-1"
      (db (process_validator_creation env_double_fault "req-1" 5 fee_sample
             world_B_accepted).2) = Some "failed").
  { apply (H env_double_fault "req-1" 5 fee_sample world_B_accepted
             (mkValidatorRequest "req-1" 5 fee_sample "started" 10 10) 1%nat).
    - vm_compute. reflexivity.
    - done.
    - simpl. lia.
    - intros j Hj. assert (j = 0%nat) as -> by lia. split; by eexists.
    - intros [_ [now Hnow]]. simpl in Hnow. done. }
  vm_compute in Hfailed. discriminate Hfailed.
Qed.

(* ===================================================================== *)
(** ** The keys of a successful request *)
(* ===================================================================== *)









(* ===================================================================== *)
(** ** Further properties of the jobs *)
(* ===================================================================== *)

Lemma filter_rows_of_other rid rid' fee ks :
  rows_of rid fee ks → rid' ≠ rid → filter (λ k, key_request_id k = rid') ks = [].
Proof.
  intros Hrows Hne. induction Hrows as [|k ks [Hk _] _ IH]; [done|].
  rewrite filter_cons, decide_False; [done|congruence].
Qed.

(** A status update leaves the rows of the other requests alone. *)
Lemma update_request_status_other oe oc rid st w rid' :
  rid' ≠ rid →
  select_request rid' (db (update_request_status oe oc rid st w).2)
  = select_request rid' (db w).
Proof.
  intros Hne. unfold_M. destruct oe as [[]|e]; simpl; [|done].
  destruct (select_request rid (db w)); simpl; [|done].
  destruct oc; simpl; [|done]. case_decide; simpl; [done|].
  rewrite select_request_update_status, decide_False; done.
Qed.

(** A job writes rows of its own request only: the request row and the key
    rows of every other request are after the job what they were before,
    whatever the environment does to the job. *)
Theorem process_validator_creation_other_requests (env : JobEnv) (rid : string) (n : Z)
    (fee : string) (w : World) (rid' : string) :
  rid' ≠ rid →
  select_request rid' (db (process_validator_creation env rid n fee w).2)
  = select_request rid' (db w) ∧
  select_keys rid' (db (process_validator_creation env rid n fee w).2)
  = select_keys rid' (db w).
Proof.
  intros Hne.
  destruct (process_validator_creation_spec env rid n fee w)
    as (m & ks & w1 & st & _ & _ & (Hreq & Hk & _) & Hrows & _ & _ & Hdb & _).
  rewrite Hdb. split.
  - rewrite update_request_status_other; [|done]. unfold select_request. by rewrite Hreq.
  - unfold select_keys. rewrite (proj1 (update_request_status_keys _ _ _ _ _)), Hk.
    rewrite filter_app, (filter_rows_of_other rid rid' fee ks); [|done..].
    by rewrite app_nil_r.
Qed.

(** [process_validator_creation_other_requests] at scenario B, for a
    second request. *)
Lemma process_validator_creation_other_requests_witness :
  select_request "req-2"
    (db (process_validator_creation env_B "req-1" 5 fee_sample world_B_accepted).2)
  = select_request "req-2" (db world_B_accepted) ∧
  select_keys "req-2"
    (db (process_validator_creation env_B "req-1" 5 fee_sample world_B_accepted).2)
  = select_keys "req-2" (db world_B_accepted).
Proof.
  apply (process_validator_creation_other_requests env_B "req-1" 5 fee_sample
           world_B_accepted "req-2").
  done.
Defined.



(* ===================================================================== *)
(** ** Further properties of the handlers *)
(* ===================================================================== *)

Lemma reachable_step w ev : reachable w → reachable (system_step w ev).
Proof.
  intros [evs ->]. exists (evs ++ [ev])%list. unfold run. by rewrite foldl_app.
Qed.

Lemma reachable_run w evs : reachable w → reachable (run evs w).
Proof.
  intros [evs0 ->]. exists (evs0 ++ evs)%list. unfold run. by rewrite foldl_app.
Qed.

(** What an accepted POST returns and writes. *)
Lemma post_validators_accepted n fee uuid4 now w :
  (0 < n)%Z → models.re_match_pattern fee = true →
  select_request uuid4 (db w) = None →
  (post_validators n fee uuid4 (Ok now) (Ok ()) w).1
  = Ok (models.mkCreateValidatorResponse uuid4 "Validator creation in progress") ∧
  db (post_validators n fee uuid4 (Ok now) (Ok ()) w).2
  = insert_request (mkValidatorRequest uuid4 n fee "started" now now) (db w) ∧
  tasks (post_validators n fee uuid4 (Ok now) (Ok ()) w).2
  = (tasks w ++ [mkTask uuid4 n fee Created])%list.
Proof.
  intros Hn Hfee Hfresh.
  unfold post_validators, models.validate, models.validate_ethereum_address.
  rewrite bool_decide_true, Hfee; [|done].
  unfold create_validator_request, spawn_validator_task. unfold_M.
  rewrite Hfresh. done.
Qed.

(** A GET for a request with the status "started". *)
Lemma get_validator_status_started rid oe2 w r :
  select_request rid (db w) = Some r → status r = "started" →
  (get_validator_status (Ok ()) oe2 rid w).1
  = Ok (models.mkValidatorStatusResponse "started" None None).
Proof.
  intros Hr Hst. unfold get_validator_status. unfold_M. rewrite Hr. simpl.
  rewrite Hst. done.
Qed.

(** POST, then GET.  A POST that validates, with an id that is not taken
    and database calls that go through, answers the id; a GET for that id
    right afterwards answers "started" without keys and without a message.
    The POST writes no key row and hands over one job that has not run. *)
Theorem post_then_get_started (n : Z) (fee uuid4 : string) (now : Z)
    (oe2 : result unit) (w : World) :
  (0 < n)%Z →
  models.re_match_pattern fee = true →
  select_request uuid4 (db w) = None →
  (post_validators n fee uuid4 (Ok now) (Ok ()) w).1
  = Ok (models.mkCreateValidatorResponse uuid4 "Validator creation in progress") ∧
  (get_validator_status (Ok ()) oe2 uuid4
     (post_validators n fee uuid4 (Ok now) (Ok ()) w).2).1
  = Ok (models.mkValidatorStatusResponse "started" None None) ∧
  validator_keys (db (post_validators n fee uuid4 (Ok now) (Ok ()) w).2)
  = validator_keys (db w) ∧
  tasks (post_validators n fee uuid4 (Ok now) (Ok ()) w).2
  = (tasks w ++ [mkTask uuid4 n fee Created])%list.
Proof.
  intros Hn Hfee Hfresh.
  destruct (post_validators_accepted n fee uuid4 now w Hn Hfee Hfresh) as (Hres & Hdb & Ht).
  split; [done|]. split; [|split; [by rewrite Hdb|done]].
  apply (get_validator_status_started uuid4 oe2 _
           (mkValidatorRequest uuid4 n fee "started" now now)); [|done].
  rewrite Hdb, select_request_insert_request. simpl. by rewrite decide_True.
Qed.

(** [post_then_get_started] for a second request after scenario A. *)
Lemma post_then_get_started_witness :
  (post_validators 2 fee_sample "req-2" (Ok 30) (Ok ()) world_A).1
  = Ok (models.mkCreateValidatorResponse "req-2" "Validator creation in progress") ∧
  (get_validator_status (Ok ()) (Ok ()) "req-2"
     (post_validators 2 fee_sample "req-2" (Ok 30) (Ok ()) world_A).2).1
  = Ok (models.mkValidatorStatusResponse "started" None None) ∧
  validator_keys (db (post_validators 2 fee_sample "req-2" (Ok 30) (Ok ()) world_A).2)
  = validator_keys (db world_A) ∧
  tasks (post_validators 2 fee_sample "req-2" (Ok 30) (Ok ()) world_A).2
  = (tasks world_A ++ [mkTask "req-2" 2 fee_sample Created])%list.
Proof.
  apply (post_then_get_started 2 fee_sample "req-2" 30 (Ok ()) world_A).
  - lia.
  - vm_compute. reflexivity.
  - vm_compute. reflexivity.
Defined.

(** When [db.refresh] raises after the commit of the request row, the
    handler raises to its caller, but the row is written and no job is
    spawned: whatever happens afterwards, the request keeps the status
    "started" and never has a key. *)
Theorem refresh_failure_leaves_request_without_job (n : Z) (fee uuid4 : string) (now : Z)
    (e : exn) (w : World) :
  reachable w →
  (0 < n)%Z →
  models.re_match_pattern fee = true →
  select_request uuid4 (db w) = None →
  (post_validators n fee uuid4 (Ok now) (Raise e) w).1 = Raise e ∧
  tasks (post_validators n fee uuid4 (Ok now) (Raise e) w).2 = tasks w ∧
  ∀ evs,
    select_request uuid4 (db (run evs (post_validators n fee uuid4 (Ok now) (Raise e) w).2))
    = Some (mkValidatorRequest uuid4 n fee "started" now now) ∧
    select_keys uuid4 (db (run evs (post_validators n fee uuid4 (Ok now) (Raise e) w).2))
    = [].
Proof.
  intros Hreach Hn Hfee Hfresh.
  pose proof (reachable_step w (Post n fee uuid4 (Ok now) (Raise e)) Hreach) as Hreach'.
  simpl in Hreach'. apply Inv_reachable in Hreach, Hreach'.
  assert (Hpost : post_validators n fee uuid4 (Ok now) (Raise e) w
                  = (Raise e,
                     mkWorld (insert_request (mkValidatorRequest uuid4 n fee "started" now now)
                                             (db w))
                             (tasks w)
                             (log w ++ [(INFO, "Creating validator request " ++ uuid4 ++
                                               " for " ++ pretty n ++ " validators")]))).
  { unfold post_validators, models.validate, models.validate_ethereum_address.
    rewrite bool_decide_true, Hfee; [|done].
    unfold create_validator_request. unfold_M. rewrite Hfresh. done. }
  rewrite Hpost in *. simpl in *. split; [done|]. split; [done|].
  set (w' := mkWorld _ _ _) in *.
  assert (Hr : select_request uuid4 (db w')
               = Some (mkValidatorRequest uuid4 n fee "started" now now)).
  { subst w'. simpl. rewrite select_request_insert_request. simpl. by rewrite decide_True. }
  assert (Hnotask : uuid4 ∉ task_request_id <$> tasks w').
  { subst w'. simpl. intros Hin. apply list_elem_of_fmap in Hin as (t & Hrid & Ht).
    apply list_elem_of_lookup in Ht as [j Hj].
    destruct (inv_task _ Hreach j t Hj) as (r & Hr' & _). congruence. }
  assert (Hover : job_over uuid4 w').
  { intros j t Hj Hrid. exfalso. apply Hnotask. apply list_elem_of_fmap.
    exists t. split; [done|]. by eapply list_elem_of_lookup_2. }
  intros evs.
  destruct (run_stable uuid4 evs w' _ Hr Hover) as (-> & -> & _).
  split; [done|].
  destruct (inv_orphan _ Hreach' _ _ Hr Hnotask) as [_ Hc].
  unfold count_keys in Hc. by apply nil_length_inv.
Qed.

(** [refresh_failure_leaves_request_without_job] for a second request
    after scenario A. *)
Lemma refresh_failure_leaves_request_without_job_witness :
  (post_validators 2 fee_sample "req-2" (Ok 30) (Raise (SQLAlchemyError "gone")) world_A).1
  = Raise (SQLAlchemyError "gone") ∧
  tasks (post_validators 2 fee_sample "req-2" (Ok 30)
           (Raise (SQLAlchemyError "gone")) world_A).2 = tasks world_A ∧
  ∀ evs,
    select_request "req-2"
      (db (run evs (post_validators 2 fee_sample "req-2" (Ok 30)
                      (Raise (SQLAlchemyError "gone")) world_A).2))
    = Some (mkValidatorRequest "req-2" 2 fee_sample "started" 30 30) ∧
    select_keys "req-2"
      (db (run evs (post_validators 2 fee_sample "req-2" (Ok 30)
                      (Raise (SQLAlchemyError "gone")) world_A).2))
    = [].
Proof.
  apply (refresh_failure_leaves_request_without_job 2 fee_sample "req-2" 30
           (SQLAlchemyError "gone") world_A).
  - by eexists.
  - lia.
  - vm_compute. reflexivity.
  - vm_compute. reflexivity.
Defined.

(* ===================================================================== *)
(** ** The handoff *)
(* ===================================================================== *)

(** A request id that is not in the table has no key row. *)
Lemma count_keys_fresh w rid :
  Inv w → select_request rid (db w) = None → count_keys rid (db w) = 0%nat.
Proof.
  intros HI Hnone.
  destruct (count_keys rid (db w)) eqn:Hc; [done|]. exfalso.
  unfold count_keys, select_keys in Hc. rewrite length_fmap in Hc.
  destruct (filter _ _) as [|k ks] eqn:Hf; [done|].
  assert (Hk : k ∈ filter (λ k, key_request_id k = rid) (validator_keys (db w))).
  { rewrite Hf. left. }
  apply list_elem_of_filter in Hk as [Hrid Hk].
  destruct (inv_key _ HI k Hk) as [r Hr]. congruence.
Qed.

(** C8.  When a POST returns a response, in a reachable world: the response
    carries the id; the request row is written with the status "started";
    the job of the request is a task of the event loop that has not run
    yet; no key of the request has been generated or stored, so the
    request, which asks for [n > 0] keys, holds fewer than [n]; and the
    handler has written no key row at all.  The response is the same for
    every number of keys asked for. *)
Theorem post_validators_returns_before_any_key (n : Z) (fee uuid4 : string)
    (oc : result Z) (orf : result unit) (w : World)
    (response : models.CreateValidatorResponse) :
  reachable w →
  (post_validators n fee uuid4 oc orf w).1 = Ok response →
  models.request_id response = uuid4 ∧
  (∃ now, select_request uuid4 (db (post_validators n fee uuid4 oc orf w).2)
          = Some (mkValidatorRequest uuid4 n fee "started" now now)) ∧
  tasks (post_validators n fee uuid4 oc orf w).2
  = (tasks w ++ [mkTask uuid4 n fee Created])%list ∧
  count_keys uuid4 (db (post_validators n fee uuid4 oc orf w).2) = 0%nat ∧
  (Z.of_nat (count_keys uuid4 (db (post_validators n fee uuid4 oc orf w).2)) < n)%Z ∧
  validator_keys (db (post_validators n fee uuid4 oc orf w).2) = validator_keys (db w) ∧
  (∀ n', (0 < n')%Z → (post_validators n' fee uuid4 oc orf w).1 = Ok response).
Proof.
  intros Hreach Hres. apply Inv_reachable in Hreach.
  assert (Hshape : (0 < n)%Z ∧ models.re_match_pattern fee = true ∧
                   (∃ now, oc = Ok now) ∧ orf = Ok () ∧
                   select_request uuid4 (db w) = None).
  { revert Hres.
    unfold post_validators, models.validate, models.validate_ethereum_address.
    case_bool_decide as Hn; [|done].
    destruct (models.re_match_pattern fee); [|done].
    unfold create_validator_request, spawn_validator_task. unfold_M.
    destruct oc as [now|e]; simpl; [|done].
    destruct (select_request uuid4 (db w)); simpl; [done|].
    destruct orf as [[]|e]; simpl; [|done].
    intros _. eauto 10. }
  destruct Hshape as (Hn & Hfee & (now & ->) & -> & Hfresh).
  destruct (post_validators_accepted n fee uuid4 now w Hn Hfee Hfresh) as (Hok & Hdb & Ht).
  rewrite Hok in Hres. injection Hres as <-.
  assert (Hc : count_keys uuid4 (db (post_validators n fee uuid4 (Ok now) (Ok ()) w).2)
               = 0%nat).
  { rewrite Hdb. unfold count_keys. rewrite select_keys_insert_request.
    by apply count_keys_fresh. }
  split; [done|]. split.
  { exists now. rewrite Hdb, select_request_insert_request. simpl. by rewrite decide_True. }
  split; [done|]. split; [done|]. split; [rewrite Hc; simpl; lia|].
  split; [by rewrite Hdb|].
  intros n' Hn'. by destruct (post_validators_accepted n' fee uuid4 now w Hn' Hfee Hfresh).
Qed.

(** [post_validators_returns_before_any_key] for a second request after
    scenario A. *)
Lemma post_validators_returns_before_any_key_witness :
  models.request_id
    (models.mkCreateValidatorResponse "req-2" "Validator creation in progress") = "req-2" ∧
  (∃ now, select_request "req-2"
            (db (post_validators 4 fee_sample "req-2" (Ok 30) (Ok ()) world_A).2)
          = Some (mkValidatorRequest "req-2" 4 fee_sample "started" now now)) ∧
  tasks (post_validators 4 fee_sample "req-2" (Ok 30) (Ok ()) world_A).2
  = (tasks world_A ++ [mkTask "req-2" 4 fee_sample Created])%list ∧
  count_keys "req-2" (db (post_validators 4 fee_sample "req-2" (Ok 30) (Ok ()) world_A).2)
  = 0%nat ∧
  (Z.of_nat (count_keys "req-2"
               (db (post_validators 4 fee_sample "req-2" (Ok 30) (Ok ()) world_A).2))
   < 4)%Z ∧
  validator_keys (db (post_validators 4 fee_sample "req-2" (Ok 30) (Ok ()) world_A).2)
  = validator_keys (db world_A) ∧
  (∀ n', (0 < n')%Z →
     (post_validators n' fee_sample "req-2" (Ok 30) (Ok ()) world_A).1
     = Ok (models.mkCreateValidatorResponse "req-2" "Validator creation in progress")).
Proof.
  apply (post_validators_returns_before_any_key 4 fee_sample "req-2" (Ok 30) (Ok ())
           world_A).
  - by eexists.
  - vm_compute. reflexivity.
Defined.

(* ===================================================================== *)
(** ** Further invariants of the service *)
(* ===================================================================== *)

(** What one event does to the tables: nothing, or one new request row
    under an id that was free, or one new key row, or the status of one
    row. *)
Lemma system_step_effect w ev :
  db (system_step w ev) = db w ∨
  (∃ r, select_request (request_id r) (db w) = None ∧
        db (system_step w ev) = insert_request r (db w)) ∨
  (∃ rid k fee now, db (system_step w ev) = insert_key rid k fee now (db w)) ∨
  (∃ rid st now, db (system_step w ev) = update_status rid st now (db w)).
Proof.
  destruct ev as [n fee uuid4 oc orf | rid oe1 oe2 | oe | j o]; simpl.
  - destruct (post_validators_effect n fee uuid4 oc orf w)
      as [[Hd _] | (now & _ & _ & Hnone & Hd & _)]; [by left|].
    right. left. eexists. split; [|exact Hd]. done.
  - left. unfold get_validator_status. unfold_M.
    destruct oe1 as [[]|]; simpl; [|done].
    destruct (select_request rid (db w)); simpl; [|done].
    repeat case_bool_decide; simpl; try done. destruct oe2 as [[]|]; done.
  - left. unfold health_check. unfold_M. destruct oe as [[]|]; done.
  - unfold resume. destruct (tasks w !! j) as [t|]; [|by left].
    destruct (task_step_effect o t w) as (p & w' & -> & _ & Hdb & _). simpl.
    destruct Hdb as [-> | [(k & now & ->) | (st & now & ->)]]; eauto 10.
Qed.

(** No row is ever deleted: an event leaves the key rows in place and adds
    at most one after them, and every request id that is in the table stays
    in the table. *)
Theorem rows_are_never_deleted (w : World) (evs : list event) :
  validator_keys (db w) `prefix_of` validator_keys (db (run evs w)) ∧
  dom (validator_requests (db w)) ⊆ dom (validator_requests (db (run evs w))).
Proof.
  revert w. induction evs as [|ev evs IH]; intros w; [by split|]. simpl.
  destruct (IH (system_step w ev)) as [Hk Hd].
  assert (validator_keys (db w) `prefix_of` validator_keys (db (system_step w ev)) ∧
          dom (validator_requests (db w)) ⊆ dom (validator_requests (db (system_step w ev))))
    as [Hk0 Hd0].
  { destruct (system_step_effect w ev)
      as [-> | [(r & _ & ->) | [(rid & k & fee & now & ->) | (rid & st & now & ->)]]];
      simpl; [done| | |].
    - split; [done|]. rewrite dom_insert. intros x Hx. apply elem_of_union. by right.
    - split; [by apply prefix_app_r|done].
    - split; [done|]. by rewrite dom_alter. }
  split; [by transitivity (validator_keys (db (system_step w ev)))|].
  intros x Hx. by apply Hd, Hd0.
Qed.

(** The status of a stored request is one of the three. *)
Lemma status_values w rid r :
  Inv w → select_request rid (db w) = Some r →
  status r = "started" ∨ terminal (status r).
Proof.
  intros HI Hr.
  destruct (Inv_request w rid r HI Hr) as [(j & t & _ & _ & _ & Hpc) | (_ & Hst & _)];
    [|by left].
  apply pc_ok_summary in Hpc as (_ & _ & _ & [?|[?|?]]); [by left|right; by left|right; by right].
Qed.

(** One event on one request row: the row stays, with its id, its number of
    validators, its recipient and its time of creation; its status stays,
    or goes from "started" to "successful" or "failed". *)
Theorem status_only_moves_forward (w : World) (ev : event) (rid : string)
    (r : ValidatorRequest) :
  reachable w →
  select_request rid (db w) = Some r →
  ∃ r', select_request rid (db (system_step w ev)) = Some r' ∧
        request_id r' = request_id r ∧
        num_validators r' = num_validators r ∧
        fee_recipient r' = fee_recipient r ∧
        created_at r' = created_at r ∧
        (status r' = status r ∨ (status r = "started" ∧ terminal (status r'))).
Proof.
  intros Hreach Hr.
  assert (Hrow : ∃ r', select_request rid (db (system_step w ev)) = Some r' ∧
                       (r' = r ∨ ∃ st now, r' = set_status st now r)).
  { destruct (system_step_effect w ev)
      as [-> | [(r0 & Hfree & ->) | [(rid0 & k & fee & now & ->) | (rid0 & st & now & ->)]]].
    - eauto.
    - rewrite select_request_insert_request.
      rewrite decide_False; [eauto|congruence].
    - eauto.
    - rewrite select_request_update_status.
      destruct (decide (rid0 = rid)) as [->|Hne]; [|eauto].
      rewrite Hr. simpl. eauto 10. }
  destruct Hrow as (r' & Hr' & Hrel). exists r'. split; [done|].
  assert (request_id r' = request_id r ∧ num_validators r' = num_validators r ∧
          fee_recipient r' = fee_recipient r ∧ created_at r' = created_at r)
    as (-> & -> & -> & ->).
  { destruct Hrel as [-> | (st & now & ->)]; done. }
  do 4 (split; [done|]).
  pose proof (reachable_step w ev Hreach) as Hreach'.
  apply Inv_reachable in Hreach, Hreach'.
  destruct (status_values w rid r Hreach Hr) as [Hst | Hterm].
  - destruct (status_values _ rid r' Hreach' Hr') as [Hst' | Hterm']; [left; congruence|].
    right. split; [done|]. exact Hterm'.
  - left. pose proof (terminal_job_over w rid r Hreach Hr Hterm) as Hover.
    destruct (step_stable rid w ev r Hr Hover) as (Hsame & _). congruence.
Qed.

(** [status_only_moves_forward] at the last step of scenario A: the write
    of the status. *)
Lemma status_only_moves_forward_witness :
  ∃ r', select_request "req-1"
          (db (system_step (run three_keys_stored empty_world)
                           (Resume 0 (answers "" 14)))) = Some r' ∧
        request_id r' = "req-1" ∧
        num_validators r' = 3 ∧
        fee_recipient r' = fee_sample ∧
        created_at r' = 10 ∧
        (status r' = "started" ∨ ("started" = "started" ∧ terminal (status r'))).
Proof.
  apply (status_only_moves_forward (run three_keys_stored empty_world)
           (Resume 0 (answers "" 14)) "req-1"
           (mkValidatorRequest "req-1" 3 fee_sample "started" 10 10)).
  - by eexists.
  - vm_compute. reflexivity.
Defined.
